(** * Split-Flap YouTube Statistics: text layout and scheduling

    A shallow embedding of [src/splitflap_youtube_stats.py]: the text
    formatter of [SplitflapPrinter] ([filter_number],
    [parse_message_chunks], [filter_string], [align_text], [set_text],
    [print], [get_stat_prefix], [print_stat]), the rate limiter of
    [YouTubeStatTracker], [YouTubeStats.get_sleep_time] and
    [SubscriberCounter.fetch]; further [clear], [already_displaying_prefix],
    [add_tracker] and [remove_tracker], the [fetch] of [ChannelStats] and of
    [RecentVideoStats], [get_serial_port_list] and [get_serial_port].

    Conventions of the embedding:
    - a Python [str] is a [list ascii]; the character predicates cover the
      ASCII repertoire, and a character above 127 is taken to be neither a
      letter, a digit nor a space;
    - a value shown on the display is an [int] or a [str] ([None] and
      [float] are left out);
    - Python integers are [Z]; a module count (display width, chunk size)
      is a [nat], and the arithmetic the source does on it is done in [Z];
    - an exception is a [Raise] result;
    - a [while] loop is a function with fuel, proved never to run out;
    - [sleep] does not change the display and is left out. *)

From Stdlib Require Import ZArith String Ascii DecimalString List Lia Bool.
From Stdlib Require Import Sorted Permutation DecimalPos.
From stdpp Require Import base list strings.

Local Open Scope Z_scope.

(** ** Python values and results *)

Abbreviation pystr := (list ascii).

Definition lit (s : string) : pystr := list_ascii_of_string s.

Definition len {A} (l : list A) : Z := Z.of_nat (length l).

Inductive exn :=
  | IndexError
  | AssertionError
  | TypeError
  | ReError
  | OutOfFuel.

Inductive result (A : Type) :=
  | Ok (a : A)
  | Raise (e : exn).

Arguments Ok {A} a.
Arguments Raise {A} e.

Definition bind {A B} (r : result A) (k : A -> result B) : result B :=
  match r with
  | Ok a => k a
  | Raise e => Raise e
  end.

Notation "'let*' x := r 'in' k" := (bind r (fun x => k))
  (at level 10, x name, r at level 100, k at level 200).

(** The values the display code is handed: an [int] or a [str]. *)
Inductive pyval :=
  | PyInt (z : Z)
  | PyStr (s : list ascii).

(** [str(z)] for an integer. *)
Definition str_of_int (z : Z) : pystr :=
  lit (NilZero.string_of_int (Z.to_int z)).

(** [str(v)] *)
Definition py_str (v : pyval) : pystr :=
  match v with
  | PyInt z => str_of_int z
  | PyStr s => s
  end.

Definition char_between (lo hi : nat) (c : ascii) : bool :=
  (lo <=? nat_of_ascii c)%nat && (nat_of_ascii c <=? hi)%nat.

Definition isdigit (c : ascii) : bool := char_between 48 57 c.
Definition isupper (c : ascii) : bool := char_between 65 90 c.
Definition islower (c : ascii) : bool := char_between 97 122 c.
Definition isalpha (c : ascii) : bool := isupper c || islower c.
(** The white space [int] skips around a literal: tab to carriage return
    and the space. The separators 28 to 31 are not skipped, although
    [str.isspace] holds of them: [int] raises [ValueError] on a literal
    that starts or ends with one. *)
Definition isspace (c : ascii) : bool :=
  char_between 9 13 c || char_between 32 32 c.

Definition lower (c : ascii) : ascii :=
  if isupper c then ascii_of_nat (nat_of_ascii c + 32) else c.
Definition upper (c : ascii) : ascii :=
  if islower c then ascii_of_nat (nat_of_ascii c - 32) else c.

(** [s.lower()] *)
Definition str_lower (s : pystr) : pystr := map lower s.

Definition str_eqb (a b : pystr) : bool := bool_decide (a = b).

(** The literal [int] reads: its argument without the white space at
    both ends. *)
Fixpoint lstrip (s : pystr) : pystr :=
  match s with
  | c :: r => if isspace c then lstrip r else s
  | [] => []
  end.

Definition strip (s : pystr) : pystr := rev (lstrip (rev (lstrip s))).

(** The digits of an integer literal: digits, with single underscores
    between them. [prev] tells whether the previous character was a digit. *)
Fixpoint int_digits (prev : bool) (s : pystr) : bool :=
  match s with
  | [] => prev
  | c :: r =>
      if isdigit c then int_digits true r
      else if Ascii.eqb c "_" then prev && int_digits false r
      else false
  end.

(** Whether [int(v)] returns, as opposed to raising [ValueError]. *)
Definition int_accepts (v : pyval) : bool :=
  match v with
  | PyInt _ => true
  | PyStr s =>
      match strip s with
      | c :: r =>
          if Ascii.eqb c "+" || Ascii.eqb c "-" then int_digits false r
          else int_digits false (c :: r)
      | [] => false
      end
  end.

(** [s[start:stop]], with Python's treatment of negative and oversized
    bounds. *)
Definition slice_bound {A} (s : list A) (i : Z) : nat :=
  if i <? 0 then Z.to_nat (Z.max 0 (len s + i))
  else Z.to_nat (Z.min i (len s)).

Definition slice {A} (s : list A) (start stop : Z) : list A :=
  take (slice_bound s stop - slice_bound s start)%nat
       (drop (slice_bound s start) s).

(** [l.insert(i, x)], for [i >= 0]: past the end it appends. *)
Definition list_insert_at {A} (i : nat) (x : A) (l : list A) : list A :=
  take i l ++ x :: drop i l.

(** [sep.join(l)] *)
Fixpoint join (sep : pystr) (l : list pystr) : pystr :=
  match l with
  | [] => []
  | [w] => w
  | w :: r => w ++ sep ++ join sep r
  end.

(** ** The display object *)

(** The state of a [SplitflapPrinter]. The base class [Splitflap] belongs to
    the [splitflap] package: [num_modules], [character_list] and
    [device_text] stand for what its [get_num_modules], [in_character_list]
    and [get_text] answer. [stdout] collects the texts [set_text] reports
    ("Setting flaps to: ..."), one per page shown, latest last. *)
Record SplitflapPrinter := {
  num_modules : nat;
  serial_isOpen : bool;
  character_list : ascii -> bool;
  device_text : list ascii;
  last_line : list ascii;
  stdout : list (list ascii)
}.

Definition get_num_modules (self : SplitflapPrinter) : nat :=
  if (num_modules self =? 0)%nat && negb (serial_isOpen self) then 8%nat
  else num_modules self.

Definition get_text (self : SplitflapPrinter) : pystr :=
  if negb (serial_isOpen self) then last_line self else device_text self.

Definition in_character_list (self : SplitflapPrinter) (c : ascii) : bool :=
  character_list self c.

(** ** [filter_number] *)

Definition sci_prefix : pystr := lit "E+".

(** An input [int] raises [ValueError] on comes back as [str(num)]; the
    [assert] on the length of the result is the [AssertionError]. *)
Definition filter_number (self : SplitflapPrinter) (num : pyval)
  : result pystr :=
  if negb (int_accepts num) then Ok (py_str num)
  else
    let num_modules := Z.of_nat (get_num_modules self) in
    let places := len (py_str num) in
    if (places >? num_modules) && (num_modules - (len sci_prefix + 1) >? 0)
    then
      let overage := places - num_modules + len sci_prefix + 1 in
      let overage :=
        if len (str_of_int overage) >? 1
        then overage + len (str_of_int overage) - 1
        else overage in
      let exp_str := sci_prefix ++ str_of_int overage in
      let out := slice (py_str num) 0 (num_modules - len exp_str) ++ exp_str in
      if len out <=? num_modules then Ok out else Raise AssertionError
    else Ok (py_str num).

(** ** [parse_message_chunks] *)

Definition default_delimeter : pystr := lit " ,.-_".

(** [l[i]] for [i >= 0] *)
Definition item {A} (l : list A) (i : nat) : result A :=
  match l !! i with
  | Some x => Ok x
  | None => Raise IndexError
  end.

(** The words between the runs of delimiter characters of [text]: what
    [re.split] returns for a character class repeated one or more times.
    [in_run] tells whether the previous character was a delimiter. A text
    that starts or ends with a delimiter has an empty first or last word. *)
Fixpoint split_runs (delimeter text : pystr) (in_run : bool) : list pystr :=
  match text with
  | [] => [[]]
  | c :: r =>
      if bool_decide (c ∈ delimeter) then
        if in_run then split_runs delimeter r true
        else [] :: split_runs delimeter r true
      else
        match split_runs delimeter r false with
        | w :: ws => (c :: w) :: ws
        | [] => [[c]]
        end
  end.

(** [re.split('[{}]+'.format(re.escape(delimeter)), text)]: the escaped
    characters stand for themselves in the class; an empty class does not
    compile. *)
Definition re_split (delimeter text : pystr) : result (list pystr) :=
  match delimeter with
  | [] => Raise ReError
  | _ => Ok (split_runs delimeter text false)
  end.

(** [range(0, stop, step)] for [step > 0] *)
Definition range_step (stop step : nat) : list nat :=
  map (fun k => k * step)%nat (seq 0 ((stop + step - 1) / step)).

(** [[word[i:i+chunk_size] for i in range(0, len(word), chunk_size)]] *)
Definition sub_words (chunk_size : nat) (word : pystr) : list pystr :=
  map (fun i => slice word (Z.of_nat i) (Z.of_nat i + Z.of_nat chunk_size))
      (range_step (length word) chunk_size).

(** Process 2: the loop that replaces each oversized word by its pieces. *)
Fixpoint split_loop (fuel chunk_size : nat) (words : list pystr)
    (index : nat) : result (list pystr) :=
  match fuel with
  | O => Raise OutOfFuel
  | S fuel =>
      if (index <? length words)%nat then
        let* word := item words index in
        let words :=
          if (chunk_size <? length word)%nat then
            foldl (fun ws sub => list_insert_at index sub ws)
                  (delete index words)
                  (reverse (sub_words chunk_size word))
          else words in
        split_loop fuel chunk_size words (index + 1)
      else Ok words
  end.

(** Process 3: the loop that joins neighbours while the result fits. *)
Fixpoint merge_loop (fuel chunk_size : nat) (delimeter : pystr)
    (words : list pystr) (index : nat) (finished : bool)
  : result (list pystr) :=
  match fuel with
  | O => Raise OutOfFuel
  | S fuel =>
      let at_end := Z.of_nat index >=? len words - 1 in
      if at_end && finished then Ok words
      else
        let index := if at_end then 0%nat else index in
        let finished := if at_end then true else finished in
        let* left := item words index in
        let* right := item words (index + 1) in
        let new_word := left ++ delimeter ++ right in
        if (length new_word <=? chunk_size)%nat then
          merge_loop fuel chunk_size delimeter
            (list_insert_at index new_word
               (delete index (delete (index + 1)%nat words)))
            (index + 1) false
        else merge_loop fuel chunk_size delimeter words (index + 1) finished
  end.

(** Rounds enough for process 2 and for process 3. *)
Definition split_fuel (words : list pystr) : nat :=
  S (length words + length (concat words)).

Definition merge_fuel (words : list pystr) : nat :=
  S (2 * length words * length words + 2 * length words).

Definition parse_message_chunks (text : pyval) (chunk_size : nat)
    (delimeter : pystr) : result (list pystr) :=
  let text := py_str text in
  if (chunk_size =? 0)%nat || (length text <=? chunk_size)%nat then Ok [text]
  else
    let* words := re_split delimeter text in
    let* words := split_loop (split_fuel words) chunk_size words 0 in
    merge_loop (merge_fuel words) chunk_size delimeter words 0 true.

(** ** [filter_string], [align_text], [set_text], [print] *)

Definition default_replacement : ascii := "?".

(** The loop runs over the positions of [str_list] and assigns in place. *)
Definition filter_string (self : SplitflapPrinter) (string : pystr)
    (replacement : ascii) : pystr :=
  foldl
    (fun str_list i =>
       match str_list !! i with
       | None => str_list
       | Some c =>
           if in_character_list self c then str_list
           else
             let new_char :=
               if isalpha c then
                 let alt_char := if isupper c then lower c else upper c in
                 if in_character_list self alt_char then alt_char
                 else replacement
               else replacement in
             <[i := new_char]> str_list
       end)
    string (seq 0 (length string)).

(** What one round of the loop leaves at the position of [c]. *)
Definition filter_char (self : SplitflapPrinter) (replacement c : ascii)
  : ascii :=
  if in_character_list self c then c
  else if isalpha c then
    let alt_char := if isupper c then lower c else upper c in
    if in_character_list self alt_char then alt_char else replacement
  else replacement.

Definition spaces (n : Z) : pystr := replicate (Z.to_nat n) " "%char.

(** [s.ljust(n)], [s.rjust(n)], [s.center(n)] *)
Definition ljust (s : pystr) (n : Z) : pystr := s ++ spaces (n - len s).
Definition rjust (s : pystr) (n : Z) : pystr := spaces (n - len s) ++ s.
Definition center (s : pystr) (n : Z) : pystr :=
  let marg := Z.max 0 (n - len s) in
  let left := marg / 2 + Z.land (Z.land marg n) 1 in
  spaces left ++ s ++ spaces (marg - left).

Definition align_text (self : SplitflapPrinter) (text align : pystr)
    (length : option nat) : pystr :=
  let length :=
    match length with
    | None => get_num_modules self
    | Some n => n
    end in
  if str_eqb (str_lower align) (lit "left") then ljust text (Z.of_nat length)
  else if str_eqb (str_lower align) (lit "right")
  then rjust text (Z.of_nat length)
  else if str_eqb (str_lower align) (lit "center")
  then center text (Z.of_nat length)
  else text.

(** What [set_text] hands to the display for [text]. *)
Definition rendered (self : SplitflapPrinter) (text align : pystr) : pystr :=
  align_text self (filter_string self text default_replacement) align None.

Definition set_text (self : SplitflapPrinter) (text align : pystr)
  : SplitflapPrinter :=
  let text := filter_string self text default_replacement in
  let text := align_text self text align None in
  let out := stdout self ++ [text] in
  let device :=
    if negb (str_eqb (get_text self) text) && serial_isOpen self then text
    else device_text self in
  {| num_modules := num_modules self;
     serial_isOpen := serial_isOpen self;
     character_list := character_list self;
     device_text := device;
     last_line := text;
     stdout := out |}.

(** [type(v)], against [type(int)] and [type(float)], which are both
    [type]. *)
Inductive pytype := Tint | Tstr | Ttype.

Definition type (v : pyval) : pytype :=
  match v with
  | PyInt _ => Tint
  | PyStr _ => Tstr
  end.

Definition pytype_eqb (a b : pytype) : bool :=
  match a, b with
  | Tint, Tint | Tstr, Tstr | Ttype, Ttype => true
  | _, _ => false
  end.

Definition print (self : SplitflapPrinter) (text : pyval) (align : pystr)
  : result SplitflapPrinter :=
  let* messages :=
    if pytype_eqb (type text) Ttype || pytype_eqb (type text) Ttype
    then let* m := filter_number self text in Ok [m]
    else
      let chunk_size := get_num_modules self in
      parse_message_chunks text chunk_size default_delimeter in
  Ok (foldl (fun self message => set_text self message align) self messages).

Definition clear (self : SplitflapPrinter) : result SplitflapPrinter :=
  print self (PyStr []) (lit "left").

(** ** [get_stat_prefix], [already_displaying_prefix], [print_stat] *)

(** The [prefixes] argument: [None], one string, or a list of strings. *)
Inductive prefixes_arg :=
  | PNone
  | POne (p : list ascii)
  | PList (l : list (list ascii)).

(** [prefixes.sort(reverse=True, key=len)]: longest first, and labels of
    equal length keep their order. *)
Fixpoint insert_by_len (p : pystr) (l : list pystr) : list pystr :=
  match l with
  | [] => [p]
  | q :: r =>
      if (length q <=? length p)%nat then p :: q :: r
      else q :: insert_by_len p r
  end.

Definition sort_by_len (l : list pystr) : list pystr :=
  foldr insert_by_len [] l.

(** The list the loops of [get_stat_prefix] and
    [already_displaying_prefix] run over. A list argument is sorted in
    place by [get_stat_prefix], so later readers see it sorted. *)
Definition as_sorted_list (prefixes : prefixes_arg) : list pystr :=
  match prefixes with
  | PNone => []
  | POne p => [p]
  | PList l => sort_by_len l
  end.

Definition get_stat_prefix (self : SplitflapPrinter) (prefixes : prefixes_arg)
    (value : pyval) : result (option pystr) :=
  match prefixes with
  | PNone | POne [] => Ok None
  | _ =>
      let prefixes := as_sorted_list prefixes in
      let value := py_str value in
      let '(longest_single, longest_combined) :=
        foldl
          (fun '(longest_single, longest_combined) p =>
             let longest_single :=
               match longest_single with
               | None =>
                   if (length p <=? get_num_modules self)%nat then Some p
                   else None
               | Some _ => longest_single
               end in
             let combined_str := p ++ lit " " ++ value in
             let longest_combined :=
               match longest_combined with
               | None =>
                   if (length combined_str <=? get_num_modules self)%nat
                   then Some p else None
               | Some _ => longest_combined
               end in
             (longest_single, longest_combined))
          (None, None) prefixes in
      match longest_combined, longest_single with
      | Some p, _ => Ok (Some p)
      | None, Some p => Ok (Some p)
      | None, None =>
          match last prefixes with
          | Some p => Ok (Some p)
          | None => Raise IndexError
          end
      end
  end.

(** Whether [sub] occurs in [s], that is [s.count(sub) > 0]. *)
Fixpoint occurs_in (sub s : pystr) : bool :=
  bool_decide (sub `prefix_of` s) ||
  match s with
  | [] => false
  | _ :: r => occurs_in sub r
  end.

Definition already_displaying_prefix (self : SplitflapPrinter)
    (prefix : option (list pystr)) : bool :=
  match prefix with
  | None => false
  | Some prefix =>
      let current := get_text self in
      existsb
        (fun p =>
           let p := filter_string self p default_replacement in
           occurs_in p current)
        prefix
  end.

Definition invert_align (align : pystr) : pystr :=
  if str_eqb align (lit "left") then lit "right"
  else if str_eqb align (lit "right") then lit "left"
  else align.

(** The object [print_stat] passes on as [prefixes] after
    [get_stat_prefix] has seen it. *)
Definition seen_prefixes (prefixes : prefixes_arg) : option (list pystr) :=
  match prefixes with
  | PNone => None
  | _ => Some (as_sorted_list prefixes)
  end.

Definition print_stat (self : SplitflapPrinter) (prefixes : prefixes_arg)
    (value : pyval) (align : pystr) (two_step : bool)
  : result SplitflapPrinter :=
  let* value := filter_number self value in
  let* prefix := get_stat_prefix self prefixes (PyStr value) in
  match prefix with
  | None | Some [] => print self (PyStr value) align
  | Some prefix =>
      if (length (prefix ++ lit " " ++ value) <=? get_num_modules self)%nat
      then
        let* self :=
          if two_step && negb (already_displaying_prefix self
                                 (seen_prefixes prefixes))
          then print self (PyStr prefix) (invert_align align)
          else Ok self in
        let combined_str :=
          if str_eqb align (lit "left") then
            value ++ rjust prefix (Z.of_nat (get_num_modules self) - len value)
          else if str_eqb align (lit "right") then
            ljust prefix (Z.of_nat (get_num_modules self) - len value) ++ value
          else value ++ lit " " ++ prefix in
        print self (PyStr combined_str) align
      else
        let* self :=
          if two_step then print self (PyStr prefix) (invert_align align)
          else Ok self in
        print self (PyStr value) align
  end.

(** ** The trackers *)

(** The rate limiter of [YouTubeStatTracker]. Readings of the monotonic
    clock and update rates are exact numbers of seconds. *)
Record YouTubeStatTracker := {
  update_rate : Z;
  last_update : option Z
}.

(** The loop of [get_sleep_time]: [None + update_rate] is a [TypeError]. *)
Fixpoint soonest_update (stat_objects : list YouTubeStatTracker)
    (soonest : option Z) : result (option Z) :=
  match stat_objects with
  | [] => Ok soonest
  | obj :: rest =>
      let* next_update :=
        match last_update obj with
        | Some t => Ok (t + update_rate obj)
        | None => Raise TypeError
        end in
      let soonest :=
        match soonest with
        | None => Some next_update
        | Some s => if s >? next_update then Some next_update else Some s
        end in
      soonest_update rest soonest
  end.

(** [monotonic] is the reading of the clock at the [return]. *)
Definition get_sleep_time (stat_objects : list YouTubeStatTracker)
    (monotonic : Z) : result Z :=
  let* soonest := soonest_update stat_objects None in
  match soonest with
  | None => Ok 0
  | Some soonest => Ok (Z.max (soonest - monotonic) 0)
  end.

Section Run.
(** A tracker class: its rate limiter, and its [fetch] and [show]. *)
Context {T : Type}.
Variable tracker : T -> YouTubeStatTracker.
Variable set_last_update : Z -> T -> T.
Variable fetch : T -> bool * T.
Variable show : T -> SplitflapPrinter -> result SplitflapPrinter.

(** The rate limiter: whether [run] goes on to update. *)
Definition due (now : Z) (self : T) : bool :=
  match last_update (tracker self) with
  | None => true
  | Some t => now >=? t + update_rate (tracker self)
  end.

(** What [run] does once the rate limiter has let it through. *)
Definition update (now : Z) (self : T) (display : SplitflapPrinter)
  : result (T * SplitflapPrinter) :=
  let self := set_last_update now self in
  let '(fetched, self) := fetch self in
  if fetched then
    let* display := show self display in Ok (self, display)
  else Ok (self, display).

Definition run (now : Z) (self : T) (display : SplitflapPrinter)
  : result (T * SplitflapPrinter) :=
  if negb (due now self) then Ok (self, display)
  else update now self display.
End Run.

Record SubscriberCounter := {
  base : YouTubeStatTracker;
  subs : option Z;
  diff : Z;
  sub_prefixes : prefixes_arg;
  show_diff : bool
}.

(** [SubscriberCounter(show_prefix, show_diff, update_rate=...)] *)
Definition new_SubscriberCounter (show_prefix show_diff : bool)
    (update_rate : Z) : SubscriberCounter :=
  {| base := {| update_rate := update_rate; last_update := None |};
     subs := None;
     diff := 0;
     sub_prefixes :=
       if show_prefix
       then PList [lit "Subscribers"; lit "Subs"; lit "Sub"]
       else PNone;
     show_diff := show_diff |}.

Definition SubscriberCounter_set_last_update (now : Z)
    (self : SubscriberCounter) : SubscriberCounter :=
  {| base := {| update_rate := update_rate (base self);
                last_update := Some now |};
     subs := subs self; diff := diff self;
     sub_prefixes := sub_prefixes self; show_diff := show_diff self |}.

(** [response] is [int(response['statistics']['subscriberCount'])], or
    [None] when a key is missing. [self.subs if self.subs else new_subs]
    tests the truth value of [self.subs]: [None] and [0] are both false. *)
Definition SubscriberCounter_fetch (response : option Z)
    (self : SubscriberCounter) : bool * SubscriberCounter :=
  match response with
  | Some new_subs =>
      let old_subs :=
        match subs self with
        | Some s => if s =? 0 then new_subs else s
        | None => new_subs
        end in
      (true,
       {| base := base self;
          subs := Some new_subs;
          diff := new_subs - old_subs;
          sub_prefixes := sub_prefixes self;
          show_diff := show_diff self |})
  | None => (false, self)
  end.

Definition SubscriberCounter_show (self : SubscriberCounter)
    (display : SplitflapPrinter) : result SplitflapPrinter :=
  match subs self with
  | None => Ok display
  | Some count =>
      let* shown :=
        if (diff self >? 0) && show_diff self then
          let* display :=
            print_stat display (sub_prefixes self)
              (PyStr (lit "+" ++ str_of_int (diff self))) (lit "right") true in
          Ok (display, false)
        else Ok (display, true) in
      let '(display, flash_prefix) := shown in
      print_stat display (sub_prefixes self) (PyInt count) (lit "right")
        flash_prefix
  end.

(** The display of the demo mode: no port, no modules reported. For the
    examples its flaps carry the lower-case letters, the digits and the
    space. *)
Definition demo : SplitflapPrinter :=
  {| num_modules := 0; serial_isOpen := false;
     character_list := fun c => islower c || isdigit c || Ascii.eqb c " ";
     device_text := []; last_line := []; stdout := [] |}.

(** A display of [n] modules on an open port. *)
Definition attached (n : nat) : SplitflapPrinter :=
  {| num_modules := n; serial_isOpen := true;
     character_list := character_list demo;
     device_text := []; last_line := []; stdout := [] |}.

(** [SubscriberCounter.run], for the [response] its [fetch] receives. *)
Definition SubscriberCounter_run (response : option Z) (now : Z)
    (self : SubscriberCounter) (display : SplitflapPrinter)
  : result (SubscriberCounter * SplitflapPrinter) :=
  run base SubscriberCounter_set_last_update
    (SubscriberCounter_fetch response) SubscriberCounter_show
    now self display.

(** ** The trackers of [YouTubeStats], [ChannelStats], [RecentVideoStats]
       and the serial ports *)

(** [YouTubeStats.add_tracker]. Trackers are compared as objects: [A]
    stands for their identities. *)
Definition add_tracker {A} `{EqDecision A} (tracker : A)
    (stat_objects : list A) : list A :=
  if bool_decide (tracker ∈ stat_objects) then stat_objects
  else stat_objects ++ [tracker].

(** [l.remove(x)]: the first [x] goes; [None] stands for [ValueError]. *)
Fixpoint list_remove {A} `{EqDecision A} (x : A) (l : list A)
  : option (list A) :=
  match l with
  | [] => None
  | y :: r =>
      if bool_decide (x = y) then Some r
      else match list_remove x r with
           | Some r' => Some (y :: r')
           | None => None
           end
  end.

(** [YouTubeStats.remove_tracker] *)
Definition remove_tracker {A} `{EqDecision A} (tracker : A)
    (stat_objects : list A) : option (list A) :=
  list_remove tracker stat_objects.

(** ** [ChannelStats] *)

Record ChannelStats := {
  channel_base : YouTubeStatTracker;
  view_count : option Z;
  video_count : option Z
}.

(** [viewCount] and [videoCount] are what the two lookups in the response
    give, read by [int]; [None] is a missing key. The view count is stored
    before the video count is looked up. *)
Definition ChannelStats_fetch (viewCount videoCount : option Z)
    (self : ChannelStats) : bool * ChannelStats :=
  match viewCount with
  | None => (false, self)
  | Some views =>
      let self := {| channel_base := channel_base self;
                     view_count := Some views;
                     video_count := video_count self |} in
      match videoCount with
      | None => (false, self)
      | Some videos =>
          (true, {| channel_base := channel_base self;
                    view_count := view_count self;
                    video_count := Some videos |})
      end
  end.

Definition ChannelStats_show (channel_title : list ascii)
    (self : ChannelStats) (display : SplitflapPrinter)
  : result SplitflapPrinter :=
  match view_count self, video_count self with
  | Some views, Some videos =>
      let* display := print display (PyStr (lit "Channel")) (lit "left") in
      let* display := print display (PyStr channel_title) (lit "left") in
      let* display :=
        print_stat display (POne (lit "Views")) (PyInt views) (lit "right")
          true in
      print_stat display (POne (lit "Vids")) (PyInt videos) (lit "right") true
  | _, _ => Ok display
  end.

(** ** [RecentVideoStats.fetch] *)

Record RecentVideoStats := {
  recent_base : YouTubeStatTracker;
  update_rate_videos : Z;
  update_rate_stats : Z;
  recent_days : Z;
  recent_hours : Z;
  latest_timestamp : option (list ascii);
  video_title : option (list ascii);
  latest_video : option (list ascii);
  displayed_video : option (list ascii)
}.

(** What the three lookups in the response give; [None] is a missing
    key. *)
Record playlist_item := {
  videoPublishedAt : option (list ascii);
  videoId : option (list ascii);
  title : option (list ascii)
}.

(** How [fetch] ends: it returns, or it reads [video_time] before any
    value was bound to it ([UnboundLocalError]); either way the tracker is
    left as the assignments made it. *)
Inductive fetch_outcome :=
  | Returned (new_video : bool) (self : RecentVideoStats)
  | UnboundLocalError (self : RecentVideoStats).

Definition set_latest (timestamp video title : option (list ascii))
    (self : RecentVideoStats) : RecentVideoStats :=
  {| recent_base := recent_base self;
     update_rate_videos := update_rate_videos self;
     update_rate_stats := update_rate_stats self;
     recent_days := recent_days self;
     recent_hours := recent_hours self;
     latest_timestamp := timestamp;
     video_title := title;
     latest_video := video;
     displayed_video := displayed_video self |}.

Definition set_update_rate (rate : Z) (self : RecentVideoStats)
  : RecentVideoStats :=
  {| recent_base := {| update_rate := rate;
                       last_update := last_update (recent_base self) |};
     update_rate_videos := update_rate_videos self;
     update_rate_stats := update_rate_stats self;
     recent_days := recent_days self;
     recent_hours := recent_hours self;
     latest_timestamp := latest_timestamp self;
     video_title := video_title self;
     latest_video := latest_video self;
     displayed_video := displayed_video self |}.

(** [timedelta(days=recent_days, hours=recent_hours)], in microseconds. *)
Definition recent_window (self : RecentVideoStats) : Z :=
  (recent_days self * 86400 + recent_hours self * 3600) * 1000000.

Section RecentVideo.
(** [strptime] reads a timestamp in the format of the API, giving its
    microseconds or [None] for [ValueError]; [now] is [datetime.now()]. *)
Variable strptime : list ascii -> option Z.

Definition RecentVideoStats_fetch (response : playlist_item) (now : Z)
    (self : RecentVideoStats) : fetch_outcome :=
  match videoPublishedAt response with
  | None => Returned false self
  | Some timestamp =>
      let self :=
        set_latest (Some timestamp) (latest_video self) (video_title self)
          self in
      match videoId response with
      | None => Returned false self
      | Some video =>
          let self :=
            set_latest (latest_timestamp self) (Some video)
              (video_title self) self in
          match title response with
          | None => Returned false self
          | Some title =>
              let self :=
                set_latest (latest_timestamp self) (latest_video self)
                  (Some title) self in
              let new_video :=
                match strptime timestamp with
                | Some video_time =>
                    let cutoff_time := now - recent_window self in
                    video_time >? cutoff_time
                | None => false
                end in
              if new_video then
                Returned true (set_update_rate (update_rate_stats self) self)
              else
                let self := set_update_rate (update_rate_videos self) self in
                match strptime timestamp with
                | Some _ => Returned false self
                | None => UnboundLocalError self
                end
          end
      end
  end.
End RecentVideo.

(** What [comports()] tells of a port. *)
Record ListPortInfo := {
  device : list ascii;
  name : list ascii;
  description : list ascii
}.

(** [a <= b] on strings: the order of [sorted]. *)
Fixpoint str_leb (a b : list ascii) : bool :=
  match a, b with
  | [], _ => true
  | _ :: _, [] => false
  | x :: a', y :: b' =>
      if (nat_of_ascii x <? nat_of_ascii y)%nat then true
      else if (nat_of_ascii y <? nat_of_ascii x)%nat then false
      else str_leb a' b'
  end.

(** [sorted(..., key=lambda p: p.device)]: ports of equal device keep their
    order. *)
Fixpoint insert_by_device (p : ListPortInfo) (l : list ListPortInfo)
  : list ListPortInfo :=
  match l with
  | [] => [p]
  | q :: r =>
      if str_leb (device p) (device q) then p :: q :: r
      else q :: insert_by_device p r
  end.

Definition get_serial_port_list (comports : list ListPortInfo)
  : list ListPortInfo :=
  foldr insert_by_device []
    (List.filter (fun p => negb (str_eqb (description p) (lit "n/a")))
       comports).

(** The value of the digits of an integer literal; underscores and a
    leading [+] do not count. *)
Definition digits_value (s : list ascii) : Z :=
  foldl (fun acc c =>
           if isdigit c then 10 * acc + (Z.of_nat (nat_of_ascii c) - 48)
           else acc)
        0 s.

(** [int(s)] for a string; [None] is [ValueError]. *)
Definition int_of_str (s : list ascii) : option Z :=
  if int_accepts (PyStr s) then
    match strip s with
    | c :: r =>
        Some (if Ascii.eqb c "-" then - digits_value r
              else digits_value (c :: r))
    | [] => None
    end
  else None.

(** The port [get_serial_port] settles on, for [key] absent, a string or
    an integer; [None] is returned when there is no port at all. The
    messages of [verbose] and [list_ports] are left out. *)
Definition get_serial_port (comports : list ListPortInfo)
    (key : option pyval) : option (list ascii) :=
  let ports := get_serial_port_list comports in
  let '(out, key) :=
    match key with
    | Some (PyStr k) =>
        match
          find (fun port => str_eqb (device port) k || str_eqb (name port) k)
               ports
        with
        | Some port => (Some (device port), key)
        | None =>
            match int_of_str k with
            | Some index => (None, Some (PyInt index))
            | None => (None, key)
            end
        end
    | _ => (None, key)
    end in
  let out :=
    match key with
    | Some (PyInt index) =>
        if (len ports >=? index) && (index >? 0)
        then device <$> ports !! Z.to_nat (index - 1)
        else out
    | _ => out
    end in
  match out with
  | Some _ => out
  | None =>
      match ports with
      | port :: _ => Some (device port)
      | [] => None
      end
  end.

(** ** Notions the properties are stated with *)

(** What process 2 makes of one word. *)
Definition pieces (chunk_size : nat) (word : list ascii) : list (list ascii) :=
  if (chunk_size <? length word)%nat then sub_words chunk_size word
  else [word].

(** [chunks] are the joins of consecutive, non-empty groups of [units]. *)
Inductive joins (delimeter : list ascii)
  : list (list ascii) -> list (list ascii) -> Prop :=
  | joins_nil : joins delimeter [] []
  | joins_cons group units chunks :
      group <> [] ->
      joins delimeter units chunks ->
      joins delimeter (group ++ units) (join delimeter group :: chunks).

(** The measure that bounds the rounds of process 3. *)
Definition potential (n index : nat) (finished : bool) : nat :=
  (2 * n * n + (if finished then 0 else n) + (n - index))%nat.

(** What holds of the list of words all along process 3, for the units
    process 2 has left. *)
Definition chunked (chunk_size : nat) (delimeter : list ascii)
    (units words : list (list ascii)) : Prop :=
  Forall (fun c => (length c <= chunk_size)%nat) words
  /\ joins delimeter units words.

(** Process 3 ends in one of two ways: with chunks, when the units do not
    all fit in one; with an [IndexError], when they do. *)
Definition merge_outcome (chunk_size : nat) (delimeter : list ascii)
    (units : list (list ascii)) (r : result (list (list ascii))) : Prop :=
  match r with
  | Ok out =>
      chunked chunk_size delimeter units out
      /\ (chunk_size < length (join delimeter units))%nat
  | Raise e =>
      e = IndexError /\ (length (join delimeter units) <= chunk_size)%nat
  end.

(** What a state of the loop has to satisfy. When all units fit in one
    chunk every join succeeds, so [finished] is only set at the start. *)
Definition merge_state (chunk_size : nat) (delimeter : list ascii)
    (units : list (list ascii)) (fuel : nat) (words : list (list ascii))
    (index : nat) (finished : bool) : Prop :=
  chunked chunk_size delimeter units words
  /\ (potential (length words) index finished < fuel)%nat
  /\ ((length (join delimeter units) <= chunk_size)%nat ->
      finished = false \/ (index + 2 <= length words)%nat).

(** The text with [tokens] for words and [seps] for what stands between
    them. *)
Fixpoint weave (tokens seps : list (list ascii)) : list ascii :=
  match tokens with
  | [] => []
  | t :: ts =>
      match seps with
      | [] => t
      | s :: ss => t ++ s ++ weave ts ss
      end
  end.

Definition delimiter_run (delimeter s : list ascii) : Prop :=
  s <> [] /\ Forall (fun c => c ∈ delimeter) s.

(** A token holds no delimiter character. *)
Definition delimiter_free (delimeter w : list ascii) : Prop :=
  Forall (fun c => c ∉ delimeter) w.

(** Of a list of tokens only the first and the last can be empty: what
    stands between two tokens next to each other is a whole run of
    delimiters. *)
Definition whole_runs (tokens : list (list ascii)) : Prop :=
  forall i : nat,
    (0 < i)%nat -> (S i < length tokens)%nat -> tokens !! i <> Some [].

(** Longest first, as [get_stat_prefix] sorts its labels. *)
Definition longer_first (a b : list ascii) : Prop :=
  (length b <= length a)%nat.

(** When a tracker is next to update, once it has updated. *)
Definition next_update (obj : YouTubeStatTracker) : option Z :=
  match last_update obj with
  | Some t => Some (t + update_rate obj)
  | None => None
  end.

(** A tracker that has not updated yet. *)
Definition never_updated (rate : Z) : YouTubeStatTracker :=
  {| update_rate := rate; last_update := None |}.

(** A counter that has fetched a count of zero. *)
Definition counter_at_zero : SubscriberCounter :=
  snd (SubscriberCounter_fetch (Some 0) (new_SubscriberCounter true true 120)).

Definition clean (delimeter word : list ascii) : Prop :=
  word <> [] /\ Forall (fun c => c ∉ delimeter) word.

Definition put_before (w : list ascii) (l : list (list ascii))
  : list (list ascii) :=
  match l with
  | t :: ts => (w ++ t) :: ts
  | [] => [w]
  end.

(** No two neighbours of [words] would fit in one chunk. *)
Definition settled (chunk_size : nat) (delimeter : list ascii)
    (upto : nat) (words : list (list ascii)) : Prop :=
  forall (j : nat) (a b : list ascii),
    (j < upto)%nat -> words !! j = Some a -> words !! S j = Some b ->
    (chunk_size < length (a ++ delimeter ++ b))%nat.

(** The alignments [align_text] knows, in any case of letters. *)
Definition known_align (align : list ascii) : Prop :=
  str_lower align = lit "left" \/ str_lower align = lit "right"
  \/ str_lower align = lit "center".

(** What changes of a display when it shows text: nothing of its port, its
    modules and its flaps, and nothing of the device while the port is
    closed; the pages are added to those shown before. *)
Definition shows (self self' : SplitflapPrinter)
    (pages : list (list ascii)) : Prop :=
  num_modules self' = num_modules self
  /\ serial_isOpen self' = serial_isOpen self
  /\ character_list self' = character_list self
  /\ (serial_isOpen self = false -> device_text self' = device_text self)
  /\ stdout self' = stdout self ++ pages
  /\ last_line self' = default (last_line self) (last pages).

(** The line [print_stat] builds when label and value fit together. *)
Definition combined_str (self : SplitflapPrinter) (prefix value align : list ascii)
  : list ascii :=
  if str_eqb align (lit "left") then
    value ++ rjust prefix (Z.of_nat (get_num_modules self) - len value)
  else if str_eqb align (lit "right") then
    ljust prefix (Z.of_nat (get_num_modules self) - len value) ++ value
  else value ++ lit " " ++ prefix.

(** What a display shows in pages that fill it. *)
Definition shows_full_pages (self self' : SplitflapPrinter) : Prop :=
  exists pages,
    shows self self' pages /\ pages <> []
    /\ Forall (fun page => length page = get_num_modules self) pages
    /\ Forall (Forall (fun c => in_character_list self c = true
                                \/ c = default_replacement \/ c = " "%char))
              pages.

Definition by_device (p q : ListPortInfo) : Prop :=
  str_leb (device p) (device q) = true.

(** The port of an index, counted from one, or else what was found
    before. *)
Definition port_at (ports : list ListPortInfo) (index : Z)
    (out : option (list ascii)) : option (list ascii) :=
  if (len ports >=? index) && (index >? 0)
  then device <$> ports !! Z.to_nat (index - 1)
  else out.

Definition first_port (ports : list ListPortInfo) (out : option (list ascii))
  : option (list ascii) :=
  match out with
  | Some _ => out
  | None =>
      match ports with
      | port :: _ => Some (device port)
      | [] => None
      end
  end.

Definition digit_step (acc : Z) (c : ascii) : Z :=
  if isdigit c then 10 * acc + (Z.of_nat (nat_of_ascii c) - 48) else acc.

Definition some_video : playlist_item :=
  {| videoPublishedAt := Some (lit "2021-03-01T12:00:00Z");
     videoId := Some (lit "dQw4w9WgXcQ");
     title := Some (lit "New video") |}.

Definition fresh_RecentVideoStats : RecentVideoStats :=
  {| recent_base := {| update_rate := 300; last_update := None |};
     update_rate_videos := 300; update_rate_stats := 1800;
     recent_days := 3; recent_hours := 0;
     latest_timestamp := None; video_title := None; latest_video := None;
     displayed_video := None |}.

Definition two_ports : list ListPortInfo :=
  [ {| device := lit "COM7"; name := lit "COM7";
       description := lit "USB Serial" |};
    {| device := lit "COM3"; name := lit "COM3";
       description := lit "Arduino" |};
    {| device := lit "COM1"; name := lit "COM1"; description := lit "n/a" |} ].

(** * Properties *)

(** ** Lists, slices and decimal strings *)

Lemma len_app {A} (a b : list A) : len (a ++ b) = len a + len b.
Proof. unfold len. rewrite length_app. lia. Qed.

Lemma len_nonneg {A} (a : list A) : 0 <= len a.
Proof. unfold len. lia. Qed.

Lemma slice_from_zero {A} (s : list A) (k : Z) :
  0 <= k -> slice s 0 k = take (Z.to_nat k) s.
Proof.
  intros Hk. unfold slice, slice_bound, len.
  replace (0 <? 0) with false by reflexivity.
  destruct (k <? 0) eqn:E; [apply Z.ltb_lt in E; lia|].
  rewrite (Z.min_l 0) by lia. change (Z.to_nat 0) with 0%nat.
  rewrite Nat.sub_0_r, drop_0.
  destruct (Z.le_gt_cases k (Z.of_nat (length s))).
  - rewrite Z.min_l by lia. reflexivity.
  - rewrite Z.min_r by lia. rewrite Nat2Z.id.
    rewrite !take_ge by lia. reflexivity.
Qed.

Lemma slice_window {A} (s : list A) (a c : nat) :
  slice s (Z.of_nat a) (Z.of_nat a + Z.of_nat c) = take c (drop a s).
Proof.
  unfold slice, slice_bound, len.
  destruct (Z.of_nat a <? 0) eqn:Ea; [apply Z.ltb_lt in Ea; lia|].
  destruct (Z.of_nat a + Z.of_nat c <? 0) eqn:Eb; [apply Z.ltb_lt in Eb; lia|].
  destruct (Nat.le_gt_cases (length s) a) as [Hge|Hlt].
  - rewrite !drop_ge by lia. by rewrite !take_nil.
  - rewrite (Z.min_l (Z.of_nat a)) by lia. rewrite Nat2Z.id.
    destruct (Nat.le_gt_cases (a + c) (length s)).
    + rewrite Z.min_l by lia. f_equal. lia.
    + rewrite Z.min_r by lia. rewrite Nat2Z.id.
      rewrite !take_ge; [done | rewrite length_drop; lia ..].
Qed.

Lemma str_of_int_two_digits (n : Z) :
  0 <= n < 100 -> len (str_of_int n) = if n <? 10 then 1 else 2.
Proof.
  intros Hn.
  assert (Hall : forallb
            (fun k => len (str_of_int (Z.of_nat k))
                      =? (if Z.of_nat k <? 10 then 1 else 2))
            (seq 0 100) = true) by (vm_compute; reflexivity).
  rewrite forallb_forall in Hall.
  specialize (Hall (Z.to_nat n)).
  rewrite Z2Nat.id in Hall by lia.
  apply Z.eqb_eq, Hall, in_seq. lia.
Qed.

(** ** [filter_number] *)

Lemma filter_number_short (self : SplitflapPrinter) (num : pyval) :
  (get_num_modules self <= 3)%nat -> filter_number self num = Ok (py_str num).
Proof.
  intros Hw. unfold filter_number.
  destruct (negb (int_accepts num)); [done|].
  replace (len sci_prefix) with 2 by reflexivity.
  destruct (Z.of_nat (get_num_modules self) - (2 + 1) >? 0) eqn:E.
  - apply Z.gtb_lt in E. lia.
  - by rewrite andb_false_r.
Qed.

Lemma filter_number_bounded (self : SplitflapPrinter) (num : pyval) out :
  int_accepts num = true ->
  (4 <= get_num_modules self)%nat ->
  filter_number self num = Ok out ->
  (length out <= get_num_modules self)%nat.
Proof.
  intros Hnum Hw. unfold filter_number. rewrite Hnum. cbn [negb]. cbv zeta.
  replace (len sci_prefix) with 2 by reflexivity.
  destruct (len (py_str num) >? Z.of_nat (get_num_modules self)) eqn:Ebig;
    cbn [andb].
  - destruct (Z.gtb_spec (Z.of_nat (get_num_modules self) - (2 + 1)) 0).
    + match goal with
      | |- (if len ?o <=? _ then _ else _) = _ -> _ =>
          set (o' := o); destruct (Z.leb_spec (len o')
                                     (Z.of_nat (get_num_modules self)))
      end; [|discriminate].
      intros Heq. assert (out = o') as -> by congruence.
      unfold len in *. lia.
    + intros [= <-]. lia.
  - intros [= <-].
    destruct (Z.gtb_spec (len (py_str num))
                (Z.of_nat (get_num_modules self))); [discriminate|].
    unfold len in *. lia.
Qed.

Lemma filter_number_returns (self : SplitflapPrinter) (num : pyval) :
  int_accepts num = true ->
  (4 <= get_num_modules self)%nat ->
  (length (py_str num) <= 99)%nat ->
  exists out, filter_number self num = Ok out.
Proof.
  intros Hnum Hw Hplaces. unfold filter_number. rewrite Hnum. cbn [negb].
  cbv zeta.
  replace (len sci_prefix) with 2 by reflexivity.
  set (w := Z.of_nat (get_num_modules self)).
  assert (4 <= w) by (subst w; lia).
  destruct (Z.gtb_spec (len (py_str num)) w) as [Hbig|]; cbn [andb];
    [|by eexists].
  destruct (Z.gtb_spec (w - (2 + 1)) 0); [|by eexists].
  set (overage := len (py_str num) - w + 2 + 1).
  assert (Hov : 4 <= overage <= 98) by (subst overage; unfold len in *; lia).
  assert (Hexp : exists overage',
             (if len (str_of_int overage) >? 1
              then overage + len (str_of_int overage) - 1 else overage)
             = overage'
             /\ len (sci_prefix ++ str_of_int overage') <= 4).
  { rewrite (str_of_int_two_digits overage) by lia.
    destruct (overage <? 10) eqn:E10.
    - exists overage. split; [done|]. rewrite len_app.
      rewrite (str_of_int_two_digits overage) by lia. rewrite E10.
      replace (len sci_prefix) with 2 by reflexivity. lia.
    - apply Z.ltb_ge in E10. exists (overage + 2 - 1). split; [done|].
      rewrite len_app, (str_of_int_two_digits (overage + 2 - 1)) by lia.
      replace (len sci_prefix) with 2 by reflexivity.
      destruct (overage + 2 - 1 <? 10); lia. }
  destruct Hexp as (overage' & -> & Hlen).
  set (exp_str := sci_prefix ++ str_of_int overage') in *.
  rewrite slice_from_zero by lia.
  assert (Hfit : (len (take (Z.to_nat (w - len exp_str)) (py_str num)
                       ++ exp_str) <=? w) = true).
  { apply Z.leb_le. rewrite len_app. unfold len at 1.
    rewrite length_take. unfold len in *. lia. }
  rewrite Hfit. by eexists.
Qed.

(** C1 (as amended). With room for a digit before the three characters of
    the suffix, that is from four modules on, a string [filter_number]
    returns for a numeric input is never longer than the display, and one is
    returned whenever the input has at most 99 characters; on a display of
    three modules or fewer the input comes back as it is. *)
Theorem filter_number_fits_display (self : SplitflapPrinter) (num : pyval) :
  int_accepts num = true ->
  ((get_num_modules self <= 3)%nat ->
     filter_number self num = Ok (py_str num)) /\
  ((4 <= get_num_modules self)%nat ->
     (forall out, filter_number self num = Ok out ->
                  (length out <= get_num_modules self)%nat) /\
     ((length (py_str num) <= 99)%nat ->
      exists out, filter_number self num = Ok out)).
Proof.
  intros Hnum. split; [apply filter_number_short|].
  intros Hw. split.
  - intros out. by apply filter_number_bounded.
  - by apply filter_number_returns.
Qed.

Lemma filter_number_fits_display_witness :
  exists out, filter_number demo (PyInt 123456789) = Ok out
              /\ (length out <= 8)%nat.
Proof.
  destruct (filter_number_fits_display demo (PyInt 123456789) eq_refl)
    as [_ Hwide].
  destruct (Hwide ltac:(vm_compute; lia)) as [Hbound Hret].
  destruct (Hret ltac:(vm_compute; lia)) as [out Hout].
  exists out. split; [exact Hout | exact (Hbound out Hout)].
Defined.

(** C1 (as stated) fails on a display of three modules: the guard asks for
    more than three, so 1234 comes back whole, four characters long. *)
Lemma filter_number_three_modules_overflow :
  (3 <= get_num_modules (attached 3))%nat
  /\ int_accepts (PyInt 1234) = true
  /\ filter_number (attached 3) (PyInt 1234) = Ok (lit "1234")
  /\ ~ (length (lit "1234") <= get_num_modules (attached 3))%nat.
Proof. vm_compute. repeat split; try lia. Qed.

(** An input whose exponent no longer fits next to a digit: the length
    check at the end of [filter_number] fails. *)
Lemma filter_number_assertion :
  length (py_str (PyInt (10 ^ 99))) = 100%nat
  /\ filter_number (attached 4) (PyInt (10 ^ 99)) = Raise AssertionError.
Proof. by vm_compute. Qed.

(** ** [parse_message_chunks]: a text that fits *)

Lemma parse_message_chunks_fits (text : pyval) (chunk_size : nat)
    (delimeter : list ascii) :
  (length (py_str text) <= chunk_size)%nat ->
  parse_message_chunks text chunk_size delimeter = Ok [py_str text].
Proof.
  intros Hs. unfold parse_message_chunks. cbv zeta.
  destruct (Nat.leb_spec (length (py_str text)) chunk_size); [|lia].
  by rewrite orb_true_r.
Qed.

(** C9. A string no longer than the chunk size comes back as the only
    chunk. *)
Theorem parse_message_chunks_short (s : list ascii) (chunk_size : nat)
    (delimeter : list ascii) :
  (length s <= chunk_size)%nat ->
  parse_message_chunks (PyStr s) chunk_size delimeter = Ok [s].
Proof. apply (parse_message_chunks_fits (PyStr s)). Qed.

Lemma parse_message_chunks_short_witness :
  parse_message_chunks (PyStr (lit "New Vid!")) 8 default_delimeter
  = Ok [lit "New Vid!"].
Proof.
  apply (parse_message_chunks_short (lit "New Vid!") 8 default_delimeter).
  vm_compute. lia.
Defined.

(** ** [parse_message_chunks]: process 2 *)

Lemma sub_words_windows (chunk_size : nat) (word : list ascii) :
  sub_words chunk_size word
  = map (fun k => take chunk_size (drop (k * chunk_size) word))
        (seq 0 ((length word + chunk_size - 1) / chunk_size)).
Proof.
  unfold sub_words, range_step. rewrite map_map.
  apply map_ext. intros k. apply slice_window.
Qed.

Lemma concat_windows {A} (c : nat) (w : list A) (n : nat) :
  concat (map (fun k => take c (drop (k * c) w)) (seq 0 n)) = take (n * c) w.
Proof.
  induction n as [|n IH]; [done|].
  rewrite seq_S, map_app, concat_app, IH. cbn [map concat Nat.add].
  rewrite app_nil_r, take_take_drop. f_equal. lia.
Qed.

Lemma windows_cover (len c : nat) :
  (0 < c)%nat -> (len <= (len + c - 1) / c * c)%nat.
Proof.
  intros Hc.
  pose proof (Nat.div_mod_eq (len + c - 1) c) as Hdm.
  pose proof (Nat.mod_upper_bound (len + c - 1) c ltac:(lia)). nia.
Qed.

Lemma windows_count (len c : nat) :
  (0 < c)%nat -> ((len + c - 1) / c <= len)%nat.
Proof.
  intros Hc. destruct len as [|len].
  - rewrite Nat.div_small by lia. lia.
  - apply Nat.Div0.div_le_upper_bound. nia.
Qed.

Lemma sub_words_concat (chunk_size : nat) (word : list ascii) :
  (0 < chunk_size)%nat -> concat (sub_words chunk_size word) = word.
Proof.
  intros Hc. rewrite sub_words_windows, concat_windows.
  apply take_ge. by apply windows_cover.
Qed.

Lemma sub_words_short (chunk_size : nat) (word : list ascii) :
  Forall (fun p => (length p <= chunk_size)%nat) (sub_words chunk_size word).
Proof.
  rewrite sub_words_windows. apply Forall_forall. intros p Hp.
  apply list_elem_of_fmap in Hp as (k & -> & _).
  rewrite length_take. lia.
Qed.

Lemma sub_words_count (chunk_size : nat) (word : list ascii) :
  (0 < chunk_size)%nat ->
  (length (sub_words chunk_size word) <= length word)%nat.
Proof.
  intros Hc. rewrite sub_words_windows, length_map, length_seq.
  by apply windows_count.
Qed.

Lemma pieces_concat (chunk_size : nat) (word : list ascii) :
  (0 < chunk_size)%nat -> concat (pieces chunk_size word) = word.
Proof.
  intros Hc. unfold pieces. destruct (chunk_size <? length word)%nat.
  - by apply sub_words_concat.
  - cbn. apply app_nil_r.
Qed.

Lemma pieces_whole (chunk_size : nat) (word : list ascii) :
  (length word <= chunk_size)%nat -> pieces chunk_size word = [word].
Proof.
  intros Hw. unfold pieces.
  destruct (Nat.ltb_spec chunk_size (length word)); [lia | done].
Qed.

Lemma pieces_short (chunk_size : nat) (word : list ascii) :
  Forall (fun p => (length p <= chunk_size)%nat) (pieces chunk_size word).
Proof.
  unfold pieces. destruct (Nat.ltb_spec chunk_size (length word)).
  - apply sub_words_short.
  - by repeat constructor.
Qed.

Lemma pieces_count (chunk_size : nat) (word : list ascii) :
  (0 < chunk_size)%nat ->
  (length (pieces chunk_size word) <= 1 + length word)%nat.
Proof.
  intros Hc. unfold pieces. destruct (chunk_size <? length word)%nat.
  - pose proof (sub_words_count chunk_size word Hc). lia.
  - cbn. lia.
Qed.

Lemma flat_map_pieces_short (chunk_size : nat) (ps : list (list ascii)) :
  Forall (fun p => (length p <= chunk_size)%nat) ps ->
  flat_map (pieces chunk_size) ps = ps.
Proof.
  induction 1 as [|p ps Hp _ IH]; [done|].
  cbn [flat_map]. by rewrite pieces_whole, IH.
Qed.

Lemma insert_reversed {A} (pre post subs : list A) :
  foldl (fun ws sub => list_insert_at (length pre) sub ws) (pre ++ post)
        (reverse subs)
  = pre ++ subs ++ post.
Proof.
  induction subs as [|a subs IH]; [done|].
  rewrite reverse_cons, foldl_app, IH. cbn [foldl].
  unfold list_insert_at. rewrite take_app_length, drop_app_length. done.
Qed.

Lemma split_loop_pieces (chunk_size : nat) :
  (0 < chunk_size)%nat ->
  forall (fuel : nat) (pre rest : list (list ascii)),
    (length (flat_map (pieces chunk_size) rest) < fuel)%nat ->
    split_loop fuel chunk_size (pre ++ rest) (length pre)
    = Ok (pre ++ flat_map (pieces chunk_size) rest).
Proof.
  intros Hc. induction fuel as [|fuel IH]; intros pre rest Hfuel; [lia|].
  cbn [split_loop]. rewrite length_app.
  destruct rest as [|word rest].
  { cbn [length].
    destruct (Nat.ltb_spec (length pre) (length pre + 0)); [lia|].
    done. }
  destruct (Nat.ltb_spec (length pre) (length pre + length (word :: rest)));
    [|cbn [length] in *; lia].
  unfold item. rewrite list_lookup_middle by done. cbn [bind].
  cbn [flat_map] in *.
  destruct (Nat.ltb_spec chunk_size (length word)) as [Hbig|Hsmall].
  - assert (Hpieces : pieces chunk_size word = sub_words chunk_size word).
    { unfold pieces.
      destruct (Nat.ltb_spec chunk_size (length word)); [done | lia]. }
    rewrite Hpieces in *.
    rewrite delete_middle, insert_reversed.
    pose proof (sub_words_short chunk_size word) as Hshort.
    pose proof (sub_words_concat chunk_size word Hc) as Hcat.
    destruct (sub_words chunk_size word) as [|p ps].
    { cbn in Hcat. subst word. cbn in Hbig. lia. }
    apply Forall_cons in Hshort as [_ Hps].
    replace (pre ++ (p :: ps) ++ rest) with ((pre ++ [p]) ++ (ps ++ rest))
      by (by rewrite <- app_assoc).
    replace (length pre + 1)%nat with (length (pre ++ [p]))
      by (rewrite length_app; cbn; lia).
    rewrite IH.
    + rewrite flat_map_app, flat_map_pieces_short by done.
      by rewrite <- !app_assoc.
    + rewrite flat_map_app, flat_map_pieces_short by done.
      rewrite !length_app in *. cbn in Hfuel. lia.
  - rewrite pieces_whole in * by done.
    replace (pre ++ word :: rest) with ((pre ++ [word]) ++ rest)
      by (by rewrite <- app_assoc).
    replace (length pre + 1)%nat with (length (pre ++ [word]))
      by (rewrite length_app; cbn; lia).
    rewrite IH; [by rewrite <- app_assoc|].
    cbn in Hfuel. lia.
Qed.

Lemma split_fuel_enough (chunk_size : nat) (words : list (list ascii)) :
  (0 < chunk_size)%nat ->
  (length (flat_map (pieces chunk_size) words) < split_fuel words)%nat.
Proof.
  intros Hc. unfold split_fuel.
  induction words as [|w words IH]; cbn [flat_map concat length]; [lia|].
  rewrite !length_app. pose proof (pieces_count chunk_size w Hc). lia.
Qed.

Lemma split_loop_all (chunk_size : nat) (words : list (list ascii)) :
  (0 < chunk_size)%nat ->
  split_loop (split_fuel words) chunk_size words 0
  = Ok (flat_map (pieces chunk_size) words).
Proof.
  intros Hc.
  apply (split_loop_pieces chunk_size Hc (split_fuel words) [] words).
  by apply split_fuel_enough.
Qed.

Lemma join_app (d : list ascii) (g1 g2 : list (list ascii)) :
  g1 <> [] -> g2 <> [] ->
  join d (g1 ++ g2) = join d g1 ++ d ++ join d g2.
Proof.
  intros H1 H2. induction g1 as [|a g1 IH]; [done|].
  destruct g1 as [|b g1].
  - destruct g2; [done|]. reflexivity.
  - change (join d ((a :: b :: g1) ++ g2))
      with (a ++ d ++ join d ((b :: g1) ++ g2)).
    rewrite IH by done. cbn [join]. by rewrite <- !app_assoc.
Qed.

Lemma joins_units (d : list ascii) (units : list (list ascii)) :
  joins d units units.
Proof.
  induction units as [|u units IH]; [constructor|].
  apply (joins_cons d [u] units units); done.
Qed.

Lemma joins_groups (d : list ascii) (units chunks : list (list ascii)) :
  joins d units chunks ->
  exists groups,
    Forall (fun g => g <> []) groups /\ concat groups = units
    /\ chunks = map (join d) groups.
Proof.
  induction 1 as [|g units chunks Hg _ (groups & Hne & Hcat & Hmap)].
  - by exists [].
  - exists (g :: groups). split; [by constructor|].
    split; cbn; congruence.
Qed.

Lemma joins_merge (d : list ascii) (pre post : list (list ascii))
    (a b : list ascii) (units : list (list ascii)) :
  joins d units (pre ++ a :: b :: post) ->
  joins d units (pre ++ (a ++ d ++ b) :: post).
Proof.
  revert units. induction pre as [|c pre IH]; intros units H.
  - cbn [app] in *. inversion H as [|g1 units1 chunks1 Hg1 H1]; subst.
    inversion H1 as [|g2 units2 chunks2 Hg2 H2]; subst.
    rewrite app_assoc, <- join_app by done.
    constructor; [|done]. by destruct g1.
  - cbn [app] in *. inversion H as [|g1 units1 chunks1 Hg1 H1]; subst.
    constructor; [done|]. by apply IH.
Qed.

Lemma joins_single (d : list ascii) (units : list (list ascii))
    (w : list ascii) :
  joins d units [w] -> w = join d units.
Proof.
  inversion 1 as [|g units1 chunks1 Hg H1]; subst.
  inversion H1; subst. by rewrite app_nil_r.
Qed.

Lemma joins_none (d : list ascii) (units : list (list ascii)) :
  joins d units [] -> units = [].
Proof. by inversion 1. Qed.

Lemma merged_list {A} (pre post : list A) (a b x : A) :
  list_insert_at (length pre) x
    (delete (length pre) (delete (length pre + 1)%nat (pre ++ a :: b :: post)))
  = pre ++ x :: post.
Proof.
  replace (pre ++ a :: b :: post) with ((pre ++ [a]) ++ b :: post)
    by (by rewrite <- app_assoc).
  replace (length pre + 1)%nat with (length (pre ++ [a]))
    by (rewrite length_app; cbn; lia).
  rewrite delete_middle, <- app_assoc. cbn [app].
  rewrite delete_middle. unfold list_insert_at.
  by rewrite take_app_length, drop_app_length.
Qed.

Lemma two_items {A} (l : list A) (i : nat) :
  (i + 1 < length l)%nat ->
  exists pre a b post, l = pre ++ a :: b :: post /\ length pre = i.
Proof.
  intros Hi.
  destruct (lookup_lt_is_Some_2 l i ltac:(lia)) as [a Ha].
  destruct (lookup_lt_is_Some_2 l (S i) ltac:(lia)) as [b Hb].
  exists (take i l), a, b, (drop (S (S i)) l). split.
  - rewrite <- (drop_S l b (S i) Hb). by rewrite take_drop_middle.
  - rewrite length_take. lia.
Qed.

Lemma potential_merge (n i : nat) (fin : bool) :
  (i + 2 <= n)%nat -> (potential (n - 1) (i + 1) false < potential n i fin)%nat.
Proof.
  intros Hn. unfold potential.
  destruct n as [|m]; [lia|]. replace (S m - 1)%nat with m by lia.
  destruct fin; nia.
Qed.

Lemma potential_skip (n i : nat) (fin : bool) :
  (i + 2 <= n)%nat -> (potential n (i + 1) fin < potential n i fin)%nat.
Proof. intros Hn. unfold potential. lia. Qed.

Lemma potential_reset (n i : nat) :
  (potential n 0 true <= potential n i false)%nat.
Proof. unfold potential. lia. Qed.


Lemma split_runs_weave (delimeter text : list ascii) :
  (exists seps,
     length (split_runs delimeter text false) = S (length seps)
     /\ Forall (delimiter_run delimeter) seps
     /\ text = weave (split_runs delimeter text false) seps)
  /\ (exists lead seps,
        length (split_runs delimeter text true) = S (length seps)
        /\ Forall (delimiter_run delimeter) seps
        /\ Forall (fun c => c ∈ delimeter) lead
        /\ text = lead ++ weave (split_runs delimeter text true) seps).
Proof.
  induction text as [|c r [IHf IHt]].
  { split; [by exists [] | by exists [], []]. }
  cbn [split_runs]. destruct (bool_decide_reflect (c ∈ delimeter)) as [Hc|Hc].
  - destruct IHt as (lead & seps & Hlen & Hseps & Hlead & Hr). split.
    + exists ((c :: lead) :: seps). cbn [length weave app].
      split; [by rewrite Hlen|]. split; [|by f_equal].
      constructor; [|done]. split; [done | by constructor].
    + exists (c :: lead), seps. split; [done|]. split; [done|].
      split; [by constructor | cbn [app]; by f_equal].
  - destruct IHf as (seps & Hlen & Hseps & Hr).
    destruct (split_runs delimeter r false) as [|w ws]; [done|].
    assert (Hweave : c :: r = weave ((c :: w) :: ws) seps).
    { rewrite Hr at 1. cbn [weave]. by destruct seps. }
    split.
    + exists seps. done.
    + exists [], seps. done.
Qed.

Lemma split_runs_free (delimeter text : list ascii) (in_run : bool) :
  Forall (delimiter_free delimeter) (split_runs delimeter text in_run).
Proof.
  revert in_run. induction text as [|c r IH]; intros in_run.
  { by repeat constructor. }
  cbn [split_runs]. destruct (bool_decide_reflect (c ∈ delimeter)) as [Hc|Hc].
  - destruct in_run; [apply IH|]. constructor; [constructor | apply IH].
  - specialize (IH false).
    destruct (split_runs delimeter r false) as [|w ws].
    + by repeat constructor.
    + apply Forall_cons in IH as [Hw Hws].
      constructor; [by constructor | done].
Qed.

Lemma split_runs_whole (delimeter text : list ascii) :
  whole_runs (split_runs delimeter text false)
  /\ (forall i : nat,
        (S i < length (split_runs delimeter text true))%nat ->
        split_runs delimeter text true !! i <> Some []).
Proof.
  induction text as [|c r [IHf IHt]].
  { split; [intros i _ Hi | intros i Hi]; cbn in Hi; lia. }
  cbn [split_runs]. destruct (bool_decide_reflect (c ∈ delimeter)) as [Hc|Hc].
  - split; [|exact IHt].
    intros [|i] Hpos Hi; [lia|]. cbn [length] in Hi.
    cbn [lookup list_lookup]. apply IHt. lia.
  - destruct (split_runs delimeter r false) as [|w ws] eqn:Hruns.
    { split; [intros i _ Hi | intros i Hi]; cbn in Hi; lia. }
    assert (Hrest : forall i : nat,
               (S (S i) < length ((c :: w) :: ws))%nat ->
               ((c :: w) :: ws) !! S i <> Some []).
    { intros i Hi. apply (IHf (S i)); [lia | exact Hi]. }
    split.
    + intros [|i] Hpos Hi; [lia | by apply Hrest].
    + intros [|i] Hi; [done | by apply Hrest].
Qed.

Lemma pieces_nonempty (chunk_size : nat) (word : list ascii) :
  (0 < chunk_size)%nat -> pieces chunk_size word <> [].
Proof.
  intros Hc Hnil. pose proof (pieces_concat chunk_size word Hc) as Hcat.
  rewrite Hnil in Hcat. cbn in Hcat. subst word.
  by rewrite pieces_whole in Hnil by (cbn; lia).
Qed.

Lemma units_of_long_text (chunk_size : nat) (delimeter text : list ascii) :
  (0 < chunk_size < length text)%nat ->
  (2 <= length (flat_map (pieces chunk_size)
                  (split_runs delimeter text false)))%nat.
Proof.
  intros [Hc Hlong].
  destruct (split_runs_weave delimeter text) as [(seps & Hlen & _ & Htext) _].
  destruct (split_runs delimeter text false) as [|t [|t' ts]]; [done| |].
  - destruct seps; [|done]. cbn [weave] in Htext. subst t.
    cbn [flat_map]. rewrite app_nil_r.
    pose proof (pieces_concat chunk_size text Hc) as Hcat.
    pose proof (pieces_short chunk_size text) as Hshort.
    destruct (pieces chunk_size text) as [|p [|p' ps]]; cbn [length]; [| |lia].
    + cbn in Hcat. subst text. cbn in Hlong. lia.
    + cbn in Hcat. rewrite app_nil_r in Hcat. subst p.
      apply Forall_cons in Hshort as [Hshort _]. lia.
  - cbn [flat_map]. rewrite !length_app.
    pose proof (pieces_nonempty chunk_size t Hc).
    pose proof (pieces_nonempty chunk_size t' Hc).
    destruct (pieces chunk_size t); [done|].
    destruct (pieces chunk_size t'); [done|]. cbn [length]. lia.
Qed.

Lemma joins_none_chunks (d : list ascii) (chunks : list (list ascii)) :
  joins d [] chunks -> chunks = [].
Proof.
  inversion 1 as [|g units chunks1 Hg H1 Hu]; [done|].
  by destruct g.
Qed.

Lemma joins_chunk_le (d : list ascii) (units chunks : list (list ascii))
    (c : list ascii) :
  joins d units chunks -> c ∈ chunks ->
  (length c <= length (join d units))%nat.
Proof.
  induction 1 as [|g units chunks Hg Hj IH]; intros Hc.
  - by apply elem_of_nil in Hc.
  - destruct units as [|u units].
    + apply joins_none_chunks in Hj. subst chunks.
      apply list_elem_of_singleton in Hc as ->. by rewrite app_nil_r.
    + rewrite join_app by done. rewrite !length_app.
      apply elem_of_cons in Hc as [->|Hc]; [lia|].
      specialize (IH Hc). lia.
Qed.

(** ** [parse_message_chunks]: process 3 *)

Section Merge.
Variable chunk_size : nat.
Variable delimeter : list ascii.
Variable units : list (list ascii).

Local Abbreviation chunked := (chunked chunk_size delimeter units).
Local Abbreviation merge_outcome := (merge_outcome chunk_size delimeter units).
Local Abbreviation merge_state := (merge_state chunk_size delimeter units).

(** One round of the loop, at a position with two words. *)
Lemma merge_round (fuel bound : nat) (pre post : list (list ascii))
    (a b : list ascii) (fin : bool) :
  chunked (pre ++ a :: b :: post) ->
  (potential (length (pre ++ a :: b :: post)) (length pre) fin
   <= bound)%nat ->
  (forall words i fin',
     merge_state bound words i fin' ->
     merge_outcome (merge_loop fuel chunk_size delimeter words i fin')) ->
  merge_outcome
    (let* left := item (pre ++ a :: b :: post) (length pre) in
     let* right := item (pre ++ a :: b :: post) (length pre + 1) in
     let new_word := left ++ delimeter ++ right in
     if (length new_word <=? chunk_size)%nat then
       merge_loop fuel chunk_size delimeter
         (list_insert_at (length pre) new_word
            (delete (length pre)
               (delete (length pre + 1)%nat (pre ++ a :: b :: post))))
         (length pre + 1) false
     else merge_loop fuel chunk_size delimeter (pre ++ a :: b :: post)
            (length pre + 1) fin).
Proof.
  intros [Hshort Hjoins] Hbound IH.
  assert (Hlen : (length pre + 2 <= length (pre ++ a :: b :: post))%nat)
    by (rewrite length_app; cbn; lia).
  assert (Ha : (pre ++ a :: b :: post) !! length pre = Some a)
    by (by apply list_lookup_middle).
  assert (Hb : (pre ++ a :: b :: post) !! (length pre + 1)%nat = Some b).
  { rewrite lookup_app_r by lia.
    by replace (length pre + 1 - length pre)%nat with 1%nat by lia. }
  unfold item. rewrite Ha, Hb. cbn [bind]. cbv zeta.
  pose proof (joins_merge _ _ _ _ _ _ Hjoins) as Hmerged.
  destruct (Nat.leb_spec (length (a ++ delimeter ++ b)) chunk_size)
    as [Hfit|Hwide].
  - rewrite merged_list. apply IH. split; [split|split].
    + rewrite Forall_app in *. destruct Hshort as [Hpre Hrest].
      split; [done|]. apply Forall_cons in Hrest as [_ Hrest].
      apply Forall_cons in Hrest as [_ Hrest]. by constructor.
    + done.
    + replace (length (pre ++ (a ++ delimeter ++ b) :: post))
        with (length (pre ++ a :: b :: post) - 1)%nat
        by (rewrite !length_app; cbn; lia).
      pose proof (potential_merge _ _ fin Hlen). lia.
    + by left.
  - apply IH. split; [done|]. split.
    + pose proof (potential_skip _ _ fin Hlen). lia.
    + intros Hall. exfalso.
      pose proof (joins_chunk_le _ _ _ (a ++ delimeter ++ b) Hmerged) as Hle.
      assert (a ++ delimeter ++ b ∈ pre ++ (a ++ delimeter ++ b) :: post)
        as Hin by (apply elem_of_app; right; left).
      specialize (Hle Hin). lia.
Qed.

Lemma merge_loop_outcome (fuel : nat) :
  forall (words : list (list ascii)) (index : nat) (finished : bool),
    merge_state fuel words index finished ->
    merge_outcome (merge_loop fuel chunk_size delimeter words index finished).
Proof.
  induction fuel as [|fuel IH];
    intros words index finished (Hinv & Hfuel & Hall); [lia|].
  cbn [merge_loop]. cbv zeta.
  destruct (Z.geb_spec (Z.of_nat index) (len words - 1)) as [Hend|Hmid].
  - destruct finished; cbn [andb].
    { split; [done|]. unfold len in Hend.
      destruct (Nat.le_gt_cases (length (join delimeter units)) chunk_size)
        as [Hfits|]; [|done].
      destruct (Hall Hfits); [done | lia]. }
    pose proof (potential_reset (length words) index) as Hreset.
    destruct words as [|a [|b post]].
    + cbn. split; [done|]. destruct Hinv as [_ Hj].
      rewrite (joins_none _ _ Hj). cbn. lia.
    + cbn. split; [done|]. destruct Hinv as [Hs Hj].
      rewrite <- (joins_single _ _ _ Hj).
      by apply Forall_cons in Hs as [Hs _].
    + apply (merge_round fuel fuel [] post a b true Hinv); [|exact IH].
      cbn [app length] in *. lia.
  - cbn [andb].
    destruct (two_items words index) as (pre & a & b & post & -> & <-).
    { unfold len in Hmid. lia. }
    apply (merge_round fuel fuel pre post a b finished Hinv); [lia|].
    exact IH.
Qed.
End Merge.

(** ** [parse_message_chunks]: the chunks *)

Lemma flat_map_pieces_all_short (chunk_size : nat)
    (words : list (list ascii)) :
  Forall (fun p => (length p <= chunk_size)%nat)
         (flat_map (pieces chunk_size) words).
Proof.
  induction words as [|w words IH]; cbn [flat_map]; [constructor|].
  apply Forall_app. split; [apply pieces_short | exact IH].
Qed.

Lemma parse_message_chunks_long (text : list ascii) (chunk_size : nat)
    (delimeter : list ascii) :
  (0 < chunk_size < length text)%nat -> delimeter <> [] ->
  merge_outcome chunk_size delimeter
    (flat_map (pieces chunk_size) (split_runs delimeter text false))
    (parse_message_chunks (PyStr text) chunk_size delimeter).
Proof.
  intros [Hc Hlong] Hd. unfold parse_message_chunks. cbn [py_str].
  destruct (Nat.eqb_spec chunk_size 0); [lia|].
  destruct (Nat.leb_spec (length text) chunk_size); [lia|]. cbn [orb].
  unfold re_split. destruct delimeter as [|d0 delimeter]; [done|].
  cbn [bind]. rewrite split_loop_all by done. cbn [bind].
  apply merge_loop_outcome. split; [|split].
  - split; [apply flat_map_pieces_all_short | apply joins_units].
  - unfold potential, merge_fuel. lia.
  - intros _. right. by apply units_of_long_text.
Qed.

(** C2. With a positive chunk size, the chunks that are returned are never
    longer than the chunk size. The text is its tokens with the runs of
    delimiters between them: no token holds a delimiter character, and the
    runs are whole ones, as only the first and the last token can be empty.
    A token no longer than the chunk size is one unit, a longer one is cut
    into units that concatenate to it; and the chunks are the joins of
    consecutive groups of the units, in order, so that a chunk ends inside
    a token only where that token, longer than the chunk size, was cut.
    The chunks are returned unless all units fit in one chunk (then the
    loop ends in an [IndexError]) or the delimiter string is empty. *)
Theorem parse_message_chunks_chunks (text : list ascii) (chunk_size : nat)
    (delimeter : list ascii) :
  (0 < chunk_size)%nat ->
  let tokens := split_runs delimeter text false in
  let units := flat_map (pieces chunk_size) tokens in
  (exists seps,
     length tokens = S (length seps)
     /\ Forall (delimiter_run delimeter) seps
     /\ text = weave tokens seps)
  /\ Forall (delimiter_free delimeter) tokens
  /\ whole_runs tokens
  /\ (forall word,
        concat (pieces chunk_size word) = word
        /\ ((length word <= chunk_size)%nat ->
            pieces chunk_size word = [word]))
  /\ match parse_message_chunks (PyStr text) chunk_size delimeter with
     | Ok chunks =>
         Forall (fun c => (length c <= chunk_size)%nat) chunks
         /\ ((length text <= chunk_size)%nat /\ chunks = [text]
             \/ (chunk_size < length text)%nat
                /\ (chunk_size < length (join delimeter units))%nat
                /\ exists groups,
                     Forall (fun g => g <> []) groups
                     /\ concat groups = units
                     /\ chunks = map (join delimeter) groups)
     | Raise e =>
         (chunk_size < length text)%nat
         /\ (e = ReError /\ delimeter = []
             \/ e = IndexError /\ delimeter <> []
                /\ (length (join delimeter units) <= chunk_size)%nat)
     end.
Proof.
  intros Hc tokens units. split; [apply split_runs_weave|].
  split; [apply split_runs_free|]. split; [apply split_runs_whole|]. split.
  { intros word. split; [by apply pieces_concat | apply pieces_whole]. }
  destruct (Nat.le_gt_cases (length text) chunk_size) as [Hshort|Hlong].
  { rewrite (parse_message_chunks_fits (PyStr text)) by done.
    split; [by repeat constructor | by left]. }
  destruct delimeter as [|d0 delimeter].
  { unfold parse_message_chunks. cbn [py_str].
    destruct (Nat.eqb_spec chunk_size 0); [lia|].
    destruct (Nat.leb_spec (length text) chunk_size); [lia|]. cbn.
    split; [done | by left]. }
  pose proof (parse_message_chunks_long text chunk_size (d0 :: delimeter)
                ltac:(lia) ltac:(done)) as Hout.
  fold tokens units in Hout. unfold merge_outcome in Hout.
  destruct (parse_message_chunks (PyStr text) chunk_size (d0 :: delimeter))
    as [chunks|e].
  - destruct Hout as [[Hforall Hjoins] Hwide]. split; [done|]. right.
    split; [done|]. split; [done|]. by apply joins_groups.
  - destruct Hout as [-> Hfits]. split; [done|]. right. done.
Qed.

Lemma parse_message_chunks_chunks_witness :
  match
    parse_message_chunks (PyStr (lit "The quick brown fox")) 8 (lit " ")
  with
  | Ok chunks => Forall (fun c => (length c <= 8)%nat) chunks
  | Raise _ => False
  end.
Proof.
  pose proof (parse_message_chunks_chunks (lit "The quick brown fox") 8
                (lit " ") ltac:(lia)) as (_ & _ & _ & _ & Hout).
  destruct (parse_message_chunks (PyStr (lit "The quick brown fox")) 8
              (lit " ")) as [chunks|e] eqn:Hrun.
  - exact (proj1 Hout).
  - vm_compute in Hrun. discriminate Hrun.
Defined.

(** A text the loop gives up on: its two words fit in one chunk. *)
Lemma parse_message_chunks_index_error :
  parse_message_chunks (PyStr (lit "a         b")) 8 (lit " ")
  = Raise IndexError.
Proof. by vm_compute. Qed.

(** C6 (the code misses it). The join puts the whole [delimeter] string
    between two words: with the default of five characters, "a" and "b"
    become a chunk of seven characters, not of three. *)
Theorem parse_message_chunks_joins_with_delimeter :
  parse_message_chunks (PyStr (lit "a b c d e")) 8 default_delimeter
  = Ok [lit "a ,.-_b"; lit "c ,.-_d"; lit "e"]
  /\ lit "a ,.-_b" = lit "a" ++ default_delimeter ++ lit "b"
  /\ length (lit "a ,.-_b") = 7%nat
  /\ length (lit "a ,.-_b") <> (length (lit "a") + length (lit "b") + 1)%nat.
Proof. vm_compute. repeat split; discriminate. Qed.

(** ** [filter_string] *)

Lemma filter_string_loop (self : SplitflapPrinter) (replacement : ascii)
    (seen rest : list ascii) :
  foldl
    (fun str_list i =>
       match str_list !! i with
       | None => str_list
       | Some c =>
           if in_character_list self c then str_list
           else
             let new_char :=
               if isalpha c then
                 let alt_char := if isupper c then lower c else upper c in
                 if in_character_list self alt_char then alt_char
                 else replacement
               else replacement in
             <[i := new_char]> str_list
       end)
    (seen ++ rest) (seq (length seen) (length rest))
  = seen ++ map (filter_char self replacement) rest.
Proof.
  revert seen. induction rest as [|c rest IH]; intros seen; [done|].
  cbn [length seq foldl map].
  rewrite list_lookup_middle by done.
  replace (seen ++ filter_char self replacement c
                :: map (filter_char self replacement) rest)
    with ((seen ++ [filter_char self replacement c])
            ++ map (filter_char self replacement) rest)
    by (by rewrite <- app_assoc).
  rewrite <- IH. rewrite length_app. cbn [length].
  rewrite Nat.add_1_r. f_equal.
  unfold filter_char. cbv zeta.
  destruct (in_character_list self c); [by rewrite <- app_assoc|].
  rewrite insert_app_r_alt by lia. rewrite Nat.sub_diag. cbn.
  by rewrite <- app_assoc.
Qed.

Lemma filter_string_map (self : SplitflapPrinter) (s : list ascii)
    (replacement : ascii) :
  filter_string self s replacement = map (filter_char self replacement) s.
Proof. apply (filter_string_loop self replacement [] s). Qed.

Lemma filter_char_cases (self : SplitflapPrinter) (replacement c : ascii) :
  filter_char self replacement c = replacement
  \/ in_character_list self (filter_char self replacement c) = true.
Proof.
  unfold filter_char.
  destruct (in_character_list self c) eqn:Hc; [by right|].
  destruct (isalpha c); [|by left]. cbv zeta.
  destruct (in_character_list self (if isupper c then lower c else upper c))
    eqn:Halt; [by right | by left].
Qed.

Lemma filter_char_shown (self : SplitflapPrinter) (replacement c : ascii) :
  in_character_list self c = true -> filter_char self replacement c = c.
Proof. intros Hc. unfold filter_char. by rewrite Hc. Qed.

Lemma filter_char_settled (self : SplitflapPrinter) (c : ascii) :
  filter_char self default_replacement
    (filter_char self default_replacement c)
  = filter_char self default_replacement c.
Proof.
  destruct (filter_char_cases self default_replacement c) as [-> | Hin].
  - unfold filter_char.
    destruct (in_character_list self default_replacement); done.
  - by apply filter_char_shown.
Qed.

(** C8. Filtering a filtered string changes nothing. *)
Theorem filter_string_idempotent (self : SplitflapPrinter) (s : list ascii) :
  filter_string self (filter_string self s default_replacement)
    default_replacement
  = filter_string self s default_replacement.
Proof.
  rewrite !filter_string_map, map_map.
  apply map_ext. intros c. apply filter_char_settled.
Qed.

(** C10. Filtering keeps the length of the string, and a character the
    display has stays where it is. *)
Theorem filter_string_in_place (self : SplitflapPrinter) (s : list ascii)
    (replacement : ascii) :
  length (filter_string self s replacement) = length s
  /\ forall (i : nat) (c : ascii),
       s !! i = Some c -> in_character_list self c = true ->
       filter_string self s replacement !! i = Some c.
Proof.
  rewrite filter_string_map. split; [apply length_map|].
  intros i c Hi Hc. rewrite list_lookup_fmap, Hi. cbn.
  by rewrite filter_char_shown.
Qed.

Lemma filter_string_in_place_witness :
  filter_string demo (lit "Sub 12") default_replacement !! 1%nat
  = Some "u"%char.
Proof.
  destruct (filter_string_in_place demo (lit "Sub 12") default_replacement)
    as [_ Hkept].
  apply Hkept; reflexivity.
Defined.

(** ** [get_stat_prefix] *)

Lemma insert_by_len_elem (p q : list ascii) (l : list (list ascii)) :
  q ∈ insert_by_len p l <-> q = p \/ q ∈ l.
Proof.
  induction l as [|a l IH]; cbn [insert_by_len].
  - rewrite list_elem_of_singleton, elem_of_nil. tauto.
  - destruct (length a <=? length p)%nat.
    + by rewrite elem_of_cons.
    + rewrite !elem_of_cons, IH. tauto.
Qed.

Lemma sort_by_len_elem (q : list ascii) (l : list (list ascii)) :
  q ∈ sort_by_len l <-> q ∈ l.
Proof.
  induction l as [|a l IH]; cbn [sort_by_len foldr]; [done|].
  fold (sort_by_len l). by rewrite insert_by_len_elem, elem_of_cons, IH.
Qed.

Lemma insert_by_len_sorted (p : list ascii) (l : list (list ascii)) :
  StronglySorted longer_first l ->
  StronglySorted longer_first (insert_by_len p l).
Proof.
  induction 1 as [|a l Hl IH Ha]; cbn [insert_by_len].
  - repeat constructor.
  - destruct (Nat.leb_spec (length a) (length p)).
    + constructor; [by constructor|].
      constructor; [done|].
      eapply Forall_impl; [exact Ha|]. unfold longer_first. intros; lia.
    + constructor; [done|].
      apply Forall_forall. intros q Hq.
      apply insert_by_len_elem in Hq as [->|Hq].
      * unfold longer_first. lia.
      * rewrite Forall_forall in Ha. by apply Ha.
Qed.

Lemma sort_by_len_sorted (l : list (list ascii)) :
  StronglySorted longer_first (sort_by_len l).
Proof.
  induction l; cbn [sort_by_len foldr]; [constructor|].
  by apply insert_by_len_sorted.
Qed.

(** The loop keeps, for each of the two tests, the first label that
    passes. *)
Lemma get_stat_prefix_loop (single combined : list ascii -> bool)
    (l : list (list ascii)) (s c : option (list ascii)) :
  foldl
    (fun '(longest_single, longest_combined) p =>
       (match longest_single with
        | None => if single p then Some p else None
        | Some _ => longest_single
        end,
        match longest_combined with
        | None => if combined p then Some p else None
        | Some _ => longest_combined
        end))
    (s, c) l
  = (match s with None => find single l | Some _ => s end,
     match c with None => find combined l | Some _ => c end).
Proof.
  revert s c. induction l as [|p l IH]; intros s c; cbn [foldl find].
  - by destruct s, c.
  - rewrite IH. destruct s, c; try done;
      destruct (single p); destruct (combined p); done.
Qed.

Lemma find_first_longest (P : list ascii -> bool) (l : list (list ascii))
    (p : list ascii) :
  StronglySorted longer_first l -> find P l = Some p ->
  P p = true /\ p ∈ l
  /\ forall q, q ∈ l -> P q = true -> (length q <= length p)%nat.
Proof.
  induction 1 as [|a l Hl IH Ha]; cbn [find]; [done|].
  destruct (P a) eqn:Pa.
  - intros [= <-]. repeat split; [done | left |].
    intros q Hq _. apply elem_of_cons in Hq as [->|Hq]; [done|].
    rewrite Forall_forall in Ha. by apply Ha.
  - intros Hfind. destruct (IH Hfind) as (Pp & Hp & Hmax).
    repeat split; [done | by right |].
    intros q Hq Pq. apply elem_of_cons in Hq as [->|Hq]; [congruence|].
    by apply Hmax.
Qed.

Lemma find_none (P : list ascii -> bool) (l : list (list ascii)) :
  find P l = None -> forall q, q ∈ l -> P q = false.
Proof.
  induction l as [|a l IH]; cbn [find];
    [intros _ q Hq; by apply elem_of_nil in Hq|].
  destruct (P a) eqn:Pa; [done|].
  intros Hfind q Hq. apply elem_of_cons in Hq as [->|Hq]; [done|].
  by apply IH.
Qed.

Lemma last_shortest (l : list (list ascii)) :
  StronglySorted longer_first l -> l <> [] ->
  exists p, last l = Some p /\ p ∈ l
            /\ forall q, q ∈ l -> (length p <= length q)%nat.
Proof.
  induction 1 as [|a l Hl IH Ha]; [done|]. intros _.
  destruct l as [|b l].
  - exists a. cbn. split; [done|]. split; [left|].
    intros q Hq. by apply list_elem_of_singleton in Hq as ->.
  - destruct IH as (p & Hlast & Hp & Hmin); [done|].
    exists p. split; [exact Hlast|]. split; [by right|].
    intros q Hq. apply elem_of_cons in Hq as [->|Hq]; [|by apply Hmin].
    rewrite Forall_forall in Ha. by apply Ha.
Qed.

(** C5. For a non-empty list of labels the choice is a longest label that
    fits next to the value, a space between them, where filling the display
    exactly counts as fitting; failing that a longest label that fits on its
    own; failing that a shortest label. On eight modules "Subs" is chosen
    for "123" among "Subscribers", "Subs" and "Sub". *)
Theorem get_stat_prefix_longest_fitting (self : SplitflapPrinter)
    (labels : list (list ascii)) (value : pyval) :
  labels <> [] ->
  let with_value p :=
    (length (p ++ lit " " ++ py_str value) <= get_num_modules self)%nat in
  let alone (p : list ascii) := (length p <= get_num_modules self)%nat in
  (exists p,
     get_stat_prefix self (PList labels) value = Ok (Some p) /\ p ∈ labels
     /\ ((exists q, q ∈ labels /\ with_value q) ->
         with_value p
         /\ forall q, q ∈ labels -> with_value q ->
                      (length q <= length p)%nat)
     /\ ((forall q, q ∈ labels -> ~ with_value q) ->
         (exists q, q ∈ labels /\ alone q) ->
         alone p
         /\ forall q, q ∈ labels -> alone q -> (length q <= length p)%nat)
     /\ ((forall q, q ∈ labels -> ~ alone q) ->
         forall q, q ∈ labels -> (length p <= length q)%nat))
  /\ get_stat_prefix demo
       (PList [lit "Subscribers"; lit "Subs"; lit "Sub"]) (PyStr (lit "123"))
     = Ok (Some (lit "Subs")).
Proof.
  intros Hne with_value alone. split; [|by vm_compute].
  unfold get_stat_prefix. cbn [as_sorted_list].
  set (single := fun p : list ascii =>
                   (length p <=? get_num_modules self)%nat).
  set (combined := fun p : list ascii =>
                     (length (p ++ lit " " ++ py_str value)
                      <=? get_num_modules self)%nat).
  rewrite (get_stat_prefix_loop single combined).
  pose proof (sort_by_len_sorted labels) as Hsorted.
  assert (Hsingle : forall q, single q = true <-> alone q)
    by (intros q; apply Nat.leb_le).
  assert (Hcombined : forall q, combined q = true <-> with_value q)
    by (intros q; apply Nat.leb_le).
  destruct (find combined (sort_by_len labels)) as [p|] eqn:Fc.
  { destruct (find_first_longest _ _ _ Hsorted Fc) as (Pp & Hp & Hmax).
    exists p. split; [done|]. rewrite sort_by_len_elem in Hp.
    split; [done|]. split; [|split].
    - intros _. split; [by apply Hcombined|].
      intros q Hq Hfit. apply Hmax; [by apply sort_by_len_elem|].
      by apply Hcombined.
    - intros Hnone. exfalso. apply (Hnone p Hp). by apply Hcombined.
    - intros Hnone. exfalso. apply (Hnone p Hp).
      apply Hcombined in Pp. unfold with_value, alone in *.
      rewrite length_app in Pp. lia. }
  pose proof (find_none _ _ Fc) as Nc.
  assert (Hnc : forall q, q ∈ labels -> ~ with_value q).
  { intros q Hq Hfit. apply Hcombined in Hfit.
    rewrite Nc in Hfit; [done | by apply sort_by_len_elem]. }
  destruct (find single (sort_by_len labels)) as [p|] eqn:Fs.
  { destruct (find_first_longest _ _ _ Hsorted Fs) as (Pp & Hp & Hmax).
    exists p. split; [done|]. rewrite sort_by_len_elem in Hp.
    split; [done|]. split; [|split].
    - intros (q & Hq & Hfit). destruct (Hnc q Hq Hfit).
    - intros _ _. split; [by apply Hsingle|].
      intros q Hq Hfit. apply Hmax; [by apply sort_by_len_elem|].
      by apply Hsingle.
    - intros Hnone. exfalso. apply (Hnone p Hp). by apply Hsingle. }
  pose proof (find_none _ _ Fs) as Ns.
  destruct (last_shortest _ Hsorted) as (p & Hlast & Hp & Hmin).
  { intros Hnil. destruct labels as [|a labels]; [done|].
    assert (a ∈ sort_by_len (a :: labels)) as Ha
      by (apply sort_by_len_elem; left).
    rewrite Hnil in Ha. by apply elem_of_nil in Ha. }
  rewrite Hlast. exists p. split; [done|]. rewrite sort_by_len_elem in Hp.
  split; [done|]. split; [|split].
  - intros (q & Hq & Hfit). destruct (Hnc q Hq Hfit).
  - intros _ (q & Hq & Hfit). apply Hsingle in Hfit.
    rewrite Ns in Hfit; [done | by apply sort_by_len_elem].
  - intros _ q Hq. apply Hmin. by apply sort_by_len_elem.
Qed.

Lemma get_stat_prefix_longest_fitting_witness :
  exists p,
    get_stat_prefix demo (PList [lit "Views"; lit "Vw"]) (PyInt 1234) = Ok (Some p)
    /\ p ∈ [lit "Views"; lit "Vw"].
Proof.
  destruct (get_stat_prefix_longest_fitting demo [lit "Views"; lit "Vw"]
              (PyInt 1234) ltac:(discriminate))
    as [(p & Hp & Hin & _) _].
  exists p. split; [exact Hp | exact Hin].
Defined.

(** ** [SubscriberCounter.fetch] *)

Lemma SubscriberCounter_fetch_diff (self : SubscriberCounter) (new_subs : Z) :
  exists self',
    SubscriberCounter_fetch (Some new_subs) self = (true, self')
    /\ subs self' = Some new_subs
    /\ diff self' = match subs self with
                    | None | Some 0 => 0
                    | Some old_subs => new_subs - old_subs
                    end.
Proof.
  eexists. split; [reflexivity|]. split; [reflexivity|]. cbn.
  destruct (subs self) as [[|old|old]|]; cbn; lia.
Qed.

(** C7 (the code misses it). After a first fetch that found no subscribers
    the stored count is 0; the next fetch, of 3, stores a difference of 0
    and not of 3, because the test that guards against the missing first
    count is a truth test, and 0 is false. *)
Theorem SubscriberCounter_fetch_after_zero :
  subs counter_at_zero = Some 0
  /\ exists self',
       SubscriberCounter_fetch (Some 3) counter_at_zero = (true, self')
       /\ subs self' = Some 3 /\ diff self' = 0 /\ diff self' <> 3 - 0.
Proof. split; [reflexivity|]. eexists. by repeat split. Qed.

(** ** [get_sleep_time] and the rate limiter *)

Lemma soonest_update_min (objs : list YouTubeStatTracker) (soonest : option Z) :
  (forall obj, obj ∈ objs -> next_update obj <> None) ->
  exists r,
    soonest_update objs soonest = Ok r
    /\ (r = soonest \/ exists obj, obj ∈ objs /\ next_update obj = r)
    /\ (forall s, soonest = Some s -> exists m, r = Some m /\ m <= s)
    /\ (forall obj t, obj ∈ objs -> next_update obj = Some t ->
                      exists m, r = Some m /\ m <= t).
Proof.
  revert soonest. induction objs as [|obj objs IH]; intros soonest Hall.
  - exists soonest. cbn. split; [done|]. split; [by left|]. split.
    + intros s ->. exists s. split; [done | lia].
    + intros obj t Hobj. by apply elem_of_nil in Hobj.
  - cbn [soonest_update].
    assert (Hobj : next_update obj <> None) by (apply Hall; left).
    unfold next_update in Hobj.
    destruct (last_update obj) as [t|] eqn:Ht; [|done]. cbn [bind].
    set (soonest' := match soonest with
                     | None => Some (t + update_rate obj)
                     | Some s => if s >? t + update_rate obj
                                 then Some (t + update_rate obj) else Some s
                     end).
    destruct (IH soonest') as (r & Hr & Hfrom & Hle & Hmin).
    { intros o Ho. apply Hall. by right. }
    assert (Hnext : next_update obj = Some (t + update_rate obj))
      by (unfold next_update; by rewrite Ht).
    assert (Hstep : exists m', soonest' = Some m' /\ m' <= t + update_rate obj
              /\ (forall s, soonest = Some s -> m' <= s)
              /\ (soonest' = soonest \/ soonest' = next_update obj)).
    { subst soonest'. destruct soonest as [s|].
      - destruct (Z.gtb_spec s (t + update_rate obj)).
        + eexists. split; [done|]. split; [lia|]. split; [|by right].
          intros ? [= <-]. lia.
        + eexists. split; [done|]. split; [lia|]. split; [|by left].
          intros ? [= <-]. lia.
      - eexists. split; [done|]. split; [lia|]. split; [done | by right]. }
    destruct Hstep as (m' & Hm' & Hm't & Hm's & Hsrc).
    destruct (Hle m' Hm') as (m & -> & Hmm').
    exists (Some m). split; [exact Hr|]. split; [|split].
    + destruct Hfrom as [Hfrom | (o & Ho & Hfrom)].
      * destruct Hsrc as [Hsrc | Hsrc].
        -- left. congruence.
        -- right. exists obj. split; [left | congruence].
      * right. exists o. split; [by right | done].
    + intros s Hs. exists m. split; [done|]. specialize (Hm's s Hs). lia.
    + intros o u Ho Hu. apply elem_of_cons in Ho as [->|Ho].
      * exists m. split; [done|]. rewrite Hnext in Hu.
        injection Hu as <-. lia.
      * exact (Hmin o u Ho Hu).
Qed.

Lemma soonest_update_never (objs : list YouTubeStatTracker)
    (soonest : option Z) :
  (exists obj, obj ∈ objs /\ last_update obj = None) ->
  soonest_update objs soonest = Raise TypeError.
Proof.
  revert soonest. induction objs as [|obj objs IH]; intros soonest.
  - intros (o & Ho & _). by apply elem_of_nil in Ho.
  - intros (o & Ho & Hnone). cbn [soonest_update].
    destruct (last_update obj) as [t|] eqn:Ht; [|done]. cbn [bind].
    apply IH. apply elem_of_cons in Ho as [->|Ho]; [congruence|].
    by exists o.
Qed.

(** C4 (as amended). When every tracker of a non-empty collection has
    updated at least once, [get_sleep_time] is the least
    [last_update + update_rate] minus the clock, floored at zero. A tracker
    that has never updated makes [get_sleep_time] raise [TypeError]; it is
    [run] that takes such a tracker as due, whatever its rate and the
    clock. *)
Theorem get_sleep_time_soonest (stat_objects : list YouTubeStatTracker)
    (now : Z) :
  (stat_objects <> [] ->
   (forall obj, obj ∈ stat_objects -> last_update obj <> None) ->
   exists soonest,
     get_sleep_time stat_objects now = Ok (Z.max (soonest - now) 0)
     /\ (exists obj, obj ∈ stat_objects /\ next_update obj = Some soonest)
     /\ forall obj t, obj ∈ stat_objects -> next_update obj = Some t ->
                      soonest <= t)
  /\ ((exists obj, obj ∈ stat_objects /\ last_update obj = None) ->
      get_sleep_time stat_objects now = Raise TypeError)
  /\ (forall (T : Type) (tracker : T -> YouTubeStatTracker)
        (set_last_update : Z -> T -> T) (fetch : T -> bool * T)
        (show : T -> SplitflapPrinter -> result SplitflapPrinter)
        (self : T) (display : SplitflapPrinter),
        last_update (tracker self) = None ->
        due tracker now self = true
        /\ run tracker set_last_update fetch show now self display
           = update set_last_update fetch show now self display).
Proof.
  split; [|split].
  - intros Hne Hall. unfold get_sleep_time.
    destruct (soonest_update_min stat_objects None)
      as (r & -> & Hfrom & _ & Hmin).
    { intros obj Hobj. specialize (Hall obj Hobj). unfold next_update.
      by destruct (last_update obj). }
    cbn [bind].
    destruct stat_objects as [|obj0 objs]; [done|].
    assert (exists t0, next_update obj0 = Some t0) as [t0 Ht0].
    { unfold next_update. specialize (Hall obj0 ltac:(left)).
      destruct (last_update obj0); [by eexists | done]. }
    destruct (Hmin obj0 t0 ltac:(left) Ht0) as (m & -> & _).
    exists m. split; [done|]. split.
    + destruct Hfrom as [? | (o & Ho & Hm)]; [done | by exists o].
    + intros obj t Hobj Ht. destruct (Hmin obj t Hobj Ht) as (m' & [= <-] & ?).
      done.
  - intros Hnever. unfold get_sleep_time.
    by rewrite soonest_update_never.
  - intros T tracker set_last_update fetch show self display Hnone.
    unfold run, due. by rewrite Hnone.
Qed.

Lemma get_sleep_time_soonest_witness :
  exists soonest,
    get_sleep_time
      [ {| update_rate := 3600; last_update := Some 10 |};
        {| update_rate := 120; last_update := Some 10 |} ] 50
    = Ok (Z.max (soonest - 50) 0)
    /\ soonest <= 130.
Proof.
  destruct (get_sleep_time_soonest
              [ {| update_rate := 3600; last_update := Some 10 |};
                {| update_rate := 120; last_update := Some 10 |} ] 50)
    as [Hmin _].
  destruct (Hmin ltac:(discriminate)) as (soonest & Hsleep & _ & Hle).
  { intros obj Hobj.
    apply elem_of_cons in Hobj as [->|Hobj]; [discriminate|].
    apply list_elem_of_singleton in Hobj as ->. discriminate. }
  exists soonest. split; [exact Hsleep|].
  apply (Hle {| update_rate := 120; last_update := Some 10 |}).
  - right. left.
  - reflexivity.
Defined.

(** C4 (as stated) fails for a tracker that has never updated:
    [get_sleep_time] adds its rate to [None] and raises, so nothing is
    returned, zero or otherwise. *)
Lemma get_sleep_time_never_updated :
  get_sleep_time [never_updated 120] 1000 = Raise TypeError
  /\ get_sleep_time [never_updated 120] 1000 <> Ok 0.
Proof. split; [reflexivity | discriminate]. Qed.

(** ** [print] and [print_stat] *)



Lemma print_one_page (self : SplitflapPrinter) (text align : list ascii) :
  (length text <= get_num_modules self)%nat ->
  print self (PyStr text) align = Ok (set_text self text align).
Proof.
  intros Hfit. unfold print. cbn [type pytype_eqb orb].
  by rewrite (parse_message_chunks_fits (PyStr text)).
Qed.




(** A first run of the subscriber counter on the detached display: due at
    once, it fetches and shows the count next to the label that fits. *)
Lemma SubscriberCounter_first_run :
  exists self' display',
    SubscriberCounter_run (Some 1000) 5 (new_SubscriberCounter true true 120)
      demo = Ok (self', display')
    /\ last_update (base self') = Some 5
    /\ subs self' = Some 1000 /\ diff self' = 0
    /\ stdout display' = [lit "sub     "; lit "sub 1000"].
Proof. eexists _, _. by vm_compute. Qed.

(** * Further properties *)

(** ** More on [filter_number] *)

Lemma filter_number_as_is (self : SplitflapPrinter) (num : pyval) :
  int_accepts num = false
  \/ (length (py_str num) <= get_num_modules self)%nat ->
  filter_number self num = Ok (py_str num).
Proof.
  intros Hcase. unfold filter_number.
  destruct (int_accepts num); cbn [negb]; [|done].
  destruct Hcase as [|Hfit]; [done|]. cbv zeta.
  destruct (Z.gtb_spec (len (py_str num)) (Z.of_nat (get_num_modules self)));
    [unfold len in *; lia | done].
Qed.

(** X1. On a display of at least four modules, a numeric input that is too
    long, by 95 characters at most, comes back as its first characters
    (three fewer than the modules for an exponent of one digit, four fewer
    for one of two) followed by E+ and the number of characters dropped. *)
Lemma filter_number_truncates (self : SplitflapPrinter) (num : pyval) :
  int_accepts num = true ->
  (4 <= get_num_modules self < length (py_str num))%nat ->
  (length (py_str num) <= get_num_modules self + 95)%nat ->
  let kept :=
    if (length (py_str num) + 3 <=? get_num_modules self + 9)%nat
    then (get_num_modules self - 3)%nat else (get_num_modules self - 4)%nat in
  filter_number self num
  = Ok (take kept (py_str num) ++ sci_prefix
        ++ str_of_int (Z.of_nat (length (py_str num) - kept))).
Proof.
  intros Hnum [Hw Hbig] Hplaces kept. unfold filter_number.
  rewrite Hnum. cbn [negb]. cbv zeta.
  replace (len sci_prefix) with 2 by reflexivity.
  set (w := Z.of_nat (get_num_modules self)).
  assert (4 <= w) by (subst w; lia).
  destruct (Z.gtb_spec (len (py_str num)) w) as [_|Hno];
    [|subst w; unfold len in Hno; lia].
  destruct (Z.gtb_spec (w - (2 + 1)) 0); [|lia]. cbn [andb].
  set (overage := len (py_str num) - w + 2 + 1).
  assert (Hov : 4 <= overage <= 98) by (subst overage w; unfold len; lia).
  rewrite (str_of_int_two_digits overage) by lia.
  subst kept.
  destruct (Nat.leb_spec (length (py_str num) + 3)
              (get_num_modules self + 9)) as [Hone|Htwo].
  - assert (Hlt : (overage <? 10) = true)
      by (apply Z.ltb_lt; subst overage w; unfold len; lia).
    rewrite Hlt. change (1 >? 1) with false. cbv iota.
    assert (Hexp : len (sci_prefix ++ str_of_int overage) = 3).
    { rewrite len_app, (str_of_int_two_digits overage), Hlt by lia.
      reflexivity. }
    rewrite Hexp, slice_from_zero by lia.
    replace (Z.to_nat (w - 3)) with (get_num_modules self - 3)%nat
      by (subst w; lia).
    replace (Z.of_nat (length (py_str num) - (get_num_modules self - 3)))
      with overage by (subst overage w; unfold len; lia).
    match goal with
    | |- (if ?c then _ else _) = _ => assert (Hc : c = true); [|by rewrite Hc]
    end.
    apply Z.leb_le. rewrite len_app, Hexp. unfold len.
    rewrite length_take. subst w. lia.
  - assert (Hge : (overage <? 10) = false)
      by (apply Z.ltb_ge; subst overage w; unfold len; lia).
    rewrite Hge. change (2 >? 1) with true. cbv iota.
    assert (Hexp : len (sci_prefix ++ str_of_int (overage + 2 - 1)) = 4).
    { rewrite len_app, (str_of_int_two_digits (overage + 2 - 1)) by lia.
      replace (len sci_prefix) with 2 by reflexivity.
      destruct (Z.ltb_spec (overage + 2 - 1) 10); [|done].
      apply Z.ltb_ge in Hge. lia. }
    rewrite Hexp, slice_from_zero by lia.
    replace (Z.to_nat (w - 4)) with (get_num_modules self - 4)%nat
      by (subst w; lia).
    replace (Z.of_nat (length (py_str num) - (get_num_modules self - 4)))
      with (overage + 2 - 1) by (subst overage w; unfold len; lia).
    match goal with
    | |- (if ?c then _ else _) = _ => assert (Hc : c = true); [|by rewrite Hc]
    end.
    apply Z.leb_le. rewrite len_app, Hexp. unfold len.
    rewrite length_take. subst w. lia.
Qed.

(** X2. When a numeric input is 96 characters longer than a display of at
    least five modules, the exponent shown is 100 although 101 characters
    are dropped. *)
Lemma filter_number_short_by_one (self : SplitflapPrinter) (num : pyval) :
  int_accepts num = true ->
  (5 <= get_num_modules self)%nat ->
  length (py_str num) = (get_num_modules self + 96)%nat ->
  filter_number self num
  = Ok (take (get_num_modules self - 5) (py_str num) ++ lit "E+100")
  /\ (length (py_str num) - (get_num_modules self - 5) = 101)%nat.
Proof.
  intros Hnum Hw Hplaces. split; [|lia]. unfold filter_number.
  rewrite Hnum. cbn [negb]. cbv zeta.
  replace (len sci_prefix) with 2 by reflexivity.
  set (w := Z.of_nat (get_num_modules self)).
  assert (5 <= w) by (subst w; lia).
  destruct (Z.gtb_spec (len (py_str num)) w) as [_|Hno];
    [|subst w; unfold len in Hno; lia].
  destruct (Z.gtb_spec (w - (2 + 1)) 0); [|lia]. cbn [andb].
  replace (len (py_str num) - w + 2 + 1) with 99
    by (subst w; unfold len; lia).
  change (len (str_of_int 99)) with 2. change (2 >? 1) with true. cbv iota.
  change (sci_prefix ++ str_of_int (99 + 2 - 1)) with (lit "E+100").
  change (len (lit "E+100")) with 5.
  rewrite slice_from_zero by lia.
  replace (Z.to_nat (w - 5)) with (get_num_modules self - 5)%nat
    by (subst w; lia).
  match goal with
  | |- (if ?c then _ else _) = _ => assert (Hc : c = true); [|by rewrite Hc]
  end.
  apply Z.leb_le. rewrite len_app. change (len (lit "E+100")) with 5.
  unfold len. rewrite length_take. subst w. lia.
Qed.

(** The decimal string of an integer reads as an integer. *)
Lemma isdigit_not_space (c : ascii) : isdigit c = true -> isspace c = false.
Proof.
  destruct c as [[] [] [] [] [] [] [] []]; cbv; congruence.
Qed.

Lemma isdigit_not_sign (c : ascii) :
  isdigit c = true -> (Ascii.eqb c "+" || Ascii.eqb c "-") = false.
Proof.
  destruct c as [[] [] [] [] [] [] [] []]; cbv; congruence.
Qed.

Lemma int_digits_all (s : list ascii) (prev : bool) :
  Forall (fun c => isdigit c = true) s -> s <> [] \/ prev = true ->
  int_digits prev s = true.
Proof.
  intros Hs. revert prev. induction Hs as [|c s Hc _ IH]; intros prev Hne.
  - by destruct Hne.
  - cbn [int_digits]. rewrite Hc. apply IH. by right.
Qed.

Lemma string_of_uint_digits (d : Decimal.uint) :
  Forall (fun c => isdigit c = true)
         (lit (NilEmpty.string_of_uint d)).
Proof.
  induction d; cbn; constructor; done.
Qed.

Lemma str_of_nat_digits (d : Decimal.uint) :
  Forall (fun c => isdigit c = true) (lit (NilZero.string_of_uint d))
  /\ lit (NilZero.string_of_uint d) <> [].
Proof.
  destruct d; try (split; [apply (string_of_uint_digits (_ d)) | done]).
  split; [by repeat constructor | done].
Qed.

Lemma lstrip_kept (c : ascii) (s : list ascii) :
  isspace c = false -> lstrip (c :: s) = c :: s.
Proof. intros Hc. cbn. by rewrite Hc. Qed.

Lemma strip_kept (s : list ascii) (first last_char : ascii) (middle : list ascii) :
  s = first :: middle -> (exists front, s = front ++ [last_char]) ->
  isspace first = false -> isspace last_char = false ->
  strip s = s.
Proof.
  intros Hs (front & Hfront) Hf Hl. unfold strip.
  rewrite Hs at 1. rewrite lstrip_kept by done. rewrite <- Hs.
  rewrite Hfront at 1. rewrite rev_app_distr. cbn [rev app].
  rewrite lstrip_kept by done.
  change (last_char :: rev front) with (rev [last_char] ++ rev front).
  by rewrite <- rev_app_distr, rev_involutive, <- Hfront.
Qed.

Lemma digits_strip (s : list ascii) :
  Forall (fun c => isdigit c = true) s -> strip s = s.
Proof.
  intros Hs. destruct s as [|c s]; [done|].
  destruct (exists_last (l := c :: s) ltac:(done)) as (front & z & Hz).
  assert (isdigit z = true).
  { rewrite Hz in Hs. apply Forall_app in Hs as [_ Hs].
    by apply Forall_cons in Hs as [? _]. }
  apply Forall_cons in Hs as [Hc _].
  apply (strip_kept (c :: s) c z s); auto using isdigit_not_space.
  by exists front.
Qed.

(** A literal that starts with one of the separators 28 to 31 does not
    read as an integer, and [filter_number] hands it back whole. *)
Lemma lstrip_last (s : list ascii) (c : ascii) :
  isspace c = false -> exists front, lstrip (s ++ [c]) = front ++ [c].
Proof.
  intros Hc. induction s as [|a s IH].
  - exists []. cbn. by rewrite Hc.
  - cbn [app lstrip]. destruct (isspace a); [exact IH|]. by exists (a :: s).
Qed.

Lemma int_accepts_separator (c : ascii) (s : list ascii) :
  char_between 28 31 c = true -> int_accepts (PyStr (c :: s)) = false.
Proof.
  intros Hc.
  assert (Hspace : isspace c = false /\ isdigit c = false
                   /\ Ascii.eqb c "+" = false /\ Ascii.eqb c "-" = false
                   /\ Ascii.eqb c "_" = false).
  { destruct c as [[] [] [] [] [] [] [] []]; cbv in Hc |- *;
      (discriminate Hc || done). }
  destruct Hspace as (Hsp & Hdig & Hplus & Hminus & Hunder).
  unfold int_accepts, strip. rewrite lstrip_kept by done.
  cbn [rev]. destruct (lstrip_last (rev s) c Hsp) as [front ->].
  rewrite rev_app_distr. cbn [rev app].
  rewrite Hplus, Hminus. cbn [orb int_digits]. by rewrite Hdig, Hunder.
Qed.

Lemma filter_number_separator (self : SplitflapPrinter) (c : ascii)
    (s : list ascii) :
  char_between 28 31 c = true ->
  filter_number self (PyStr (c :: s)) = Ok (c :: s).
Proof.
  intros Hc. unfold filter_number. by rewrite int_accepts_separator.
Qed.

Lemma int_accepts_str_of_int (z : Z) :
  int_accepts (PyStr (str_of_int z)) = true.
Proof.
  unfold str_of_int, int_accepts.
  destruct z as [|p|p]; cbn [Z.to_int NilZero.string_of_int].
  - reflexivity.
  - destruct (str_of_nat_digits (Pos.to_uint p)) as [Hd Hne].
    rewrite digits_strip by done.
    destruct (lit (NilZero.string_of_uint (Pos.to_uint p))) as [|c s];
      [done|].
    pose proof Hd as Hall. apply Forall_cons in Hd as [Hc _].
    rewrite isdigit_not_sign by done. by apply int_digits_all; [|left].
  - destruct (str_of_nat_digits (Pos.to_uint p)) as [Hd Hne].
    change (lit (String "-" (NilZero.string_of_uint (Pos.to_uint p))))
      with ("-"%char :: lit (NilZero.string_of_uint (Pos.to_uint p))).
    destruct (exists_last Hne) as (front & z & Hz).
    assert (isdigit z = true).
    { rewrite Hz in Hd. apply Forall_app in Hd as [_ Hd].
      by apply Forall_cons in Hd as [? _]. }
    rewrite (strip_kept _ "-"%char z
               (lit (NilZero.string_of_uint (Pos.to_uint p))));
      [| done | exists ("-"%char :: front); by rewrite Hz
       | reflexivity | by apply isdigit_not_space].
    cbn [Ascii.eqb orb]. change (Ascii.eqb "-" "+") with false.
    change (Ascii.eqb "-" "-") with true. cbn [orb].
    by apply int_digits_all; [|left].
Qed.

(** X4. The decimal string of an integer is filtered exactly as the
    integer is. *)
Lemma filter_number_of_string (self : SplitflapPrinter) (z : Z) :
  filter_number self (PyStr (str_of_int z)) = filter_number self (PyInt z).
Proof.
  unfold filter_number. rewrite int_accepts_str_of_int. reflexivity.
Qed.

(** X3. Whatever [filter_number] returns is returned unchanged when it is
    filtered again. *)
Lemma filter_number_again (self : SplitflapPrinter) (num : pyval)
    (out : list ascii) :
  filter_number self num = Ok out -> filter_number self (PyStr out) = Ok out.
Proof.
  intros Hout.
  destruct (Nat.le_gt_cases (get_num_modules self) 3) as [Hw|Hw].
  { by rewrite filter_number_short. }
  destruct (int_accepts num) eqn:Hnum.
  - apply (filter_number_as_is self (PyStr out)). right.
    apply (filter_number_bounded self num out); [done | lia | done].
  - rewrite filter_number_as_is in Hout by (by left).
    injection Hout as <-. destruct num as [z|s]; [done|].
    apply filter_number_as_is. by left.
Qed.

(** ** More on [parse_message_chunks] *)

(** X5. The list of chunks that is returned is never empty, and a text
    longer than a positive chunk size comes back in at least two chunks. *)
Lemma parse_message_chunks_several (text : list ascii) (chunk_size : nat)
    (delimeter : list ascii) (chunks : list (list ascii)) :
  parse_message_chunks (PyStr text) chunk_size delimeter = Ok chunks ->
  chunks <> []
  /\ ((0 < chunk_size < length text)%nat -> (2 <= length chunks)%nat).
Proof.
  intros Hrun.
  destruct (Nat.eq_dec chunk_size 0%nat) as [->|Hc].
  { unfold parse_message_chunks in Hrun. cbn in Hrun.
    injection Hrun as <-. split; [done | lia]. }
  destruct (Nat.le_gt_cases (length text) chunk_size) as [Hshort|Hlong].
  { rewrite (parse_message_chunks_fits (PyStr text)) in Hrun by done.
    injection Hrun as <-. split; [done | lia]. }
  destruct delimeter as [|d0 delimeter].
  { unfold parse_message_chunks in Hrun. cbn [py_str] in Hrun.
    destruct (Nat.eqb_spec chunk_size 0); [lia|].
    destruct (Nat.leb_spec (length text) chunk_size); [lia|]. done. }
  pose proof (parse_message_chunks_long text chunk_size (d0 :: delimeter)
                ltac:(lia) ltac:(done)) as Hout.
  rewrite Hrun in Hout. destruct Hout as [[Hshort Hjoins] Hwide].
  assert (2 <= length chunks)%nat as Htwo;
    [|split; [intros ->; cbn in Htwo; lia | done]].
  destruct chunks as [|c [|c' chunks]]; cbn [length]; [| |lia].
  - rewrite (joins_none _ _ Hjoins) in Hwide. cbn in Hwide. lia.
  - rewrite <- (joins_single _ _ _ Hjoins) in Hwide.
    apply Forall_cons in Hshort as [? _]. lia.
Qed.

Lemma joins_some (d : list ascii) (units chunks : list (list ascii)) :
  joins d units chunks -> units = [] <-> chunks = [].
Proof.
  destruct 1 as [|g units chunks Hg _]; [done|].
  split; [|done]. intros Hnil. by destruct g.
Qed.

Lemma joins_rejoin (d : list ascii) (units chunks : list (list ascii)) :
  joins d units chunks -> join d chunks = join d units.
Proof.
  induction 1 as [|g units chunks Hg Hj IH]; [done|].
  destruct chunks as [|c chunks].
  - rewrite (joins_none _ _ Hj). by rewrite app_nil_r.
  - assert (units <> []) by (intros Hu; by apply (joins_some _ _ _ Hj) in Hu).
    rewrite join_app by done. rewrite <- IH. reflexivity.
Qed.

Lemma split_runs_some (d r : list ascii) (in_run : bool) :
  split_runs d r in_run <> [].
Proof.
  revert in_run. induction r as [|c r IH]; intros in_run; [done|].
  cbn [split_runs]. destruct (bool_decide (c ∈ d)).
  - destruct in_run; [apply IH | done].
  - by destruct (split_runs d r false).
Qed.

Lemma split_runs_word (d w r : list ascii) (in_run : bool) :
  Forall (fun c => c ∉ d) w -> w <> [] \/ in_run = false ->
  split_runs d (w ++ r) in_run = put_before w (split_runs d r false).
Proof.
  intros Hw. revert in_run. induction Hw as [|c w Hc _ IH]; intros in_run Hne.
  - destruct Hne as [Hne | ->]; [done|]. cbn [app].
    pose proof (split_runs_some d r false).
    by destruct (split_runs d r false).
  - cbn [app split_runs].
    destruct (bool_decide_reflect (c ∈ d)); [done|].
    destruct w as [|c' w].
    + rewrite (IH false) by (by right). pose proof (split_runs_some d r false).
      by destruct (split_runs d r false).
    + rewrite (IH false) by (by left). pose proof (split_runs_some d r false).
      by destruct (split_runs d r false).
Qed.

Lemma split_runs_delimiter (d r : list ascii) (k : list ascii) :
  Forall (fun c => c ∈ d) k ->
  split_runs d (k ++ r) true = split_runs d r true.
Proof.
  induction 1 as [|c k Hc _ IH]; [done|].
  cbn [app split_runs]. by rewrite bool_decide_true.
Qed.

Lemma split_runs_after_delimiter (d r : list ascii) :
  d <> [] ->
  split_runs d (d ++ r) false = [] :: split_runs d r true.
Proof.
  intros Hd. destruct d as [|c d'] eqn:Ed; [done|]. rewrite <- Ed.
  rewrite Ed at 2. cbn [app split_runs].
  rewrite bool_decide_true by (rewrite Ed; left). f_equal.
  apply split_runs_delimiter. apply Forall_forall. intros x Hx.
  rewrite Ed. by right.
Qed.

Lemma split_runs_join (d : list ascii) (words : list (list ascii))
    (in_run : bool) :
  d <> [] -> words <> [] -> Forall (clean d) words ->
  split_runs d (join d words) in_run = words.
Proof.
  intros Hd Hne Hwords. revert in_run.
  induction Hwords as [|w words [Hw Hclean] Hrest IH]; [done|].
  intros in_run. destruct words as [|w' words].
  - cbn [join]. rewrite <- (app_nil_r w) at 1.
    rewrite (split_runs_word d w [] in_run Hclean (or_introl Hw)).
    cbn. by rewrite app_nil_r.
  - change (join d (w :: w' :: words)) with (w ++ d ++ join d (w' :: words)).
    rewrite (split_runs_word d w _ in_run Hclean (or_introl Hw)).
    rewrite split_runs_after_delimiter by done.
    rewrite IH by done. cbn. by rewrite app_nil_r.
Qed.

(** X6. For words without delimiter characters, none empty and none longer
    than the chunk size, joined by the delimiter string: chunks are
    returned, and joining them by the delimiter string gives the text
    back. *)
Lemma parse_message_chunks_words (d : list ascii)
    (words : list (list ascii)) (chunk_size : nat) :
  d <> [] -> words <> [] -> Forall (clean d) words ->
  Forall (fun w => (length w <= chunk_size)%nat) words ->
  exists chunks,
    parse_message_chunks (PyStr (join d words)) chunk_size d = Ok chunks
    /\ join d chunks = join d words.
Proof.
  intros Hd Hne Hclean Hshort.
  destruct (Nat.le_gt_cases (length (join d words)) chunk_size)
    as [Hfits|Hlong].
  { exists [join d words]. split; [|done].
    by apply (parse_message_chunks_fits (PyStr (join d words))). }
  assert (0 < chunk_size)%nat as Hc.
  { destruct words as [|w words]; [done|].
    apply Forall_cons in Hclean as [[Hw _] _].
    apply Forall_cons in Hshort as [Hs _]. destruct w; [done|].
    cbn in Hs. lia. }
  pose proof (parse_message_chunks_long (join d words) chunk_size d
                ltac:(lia) Hd) as Hout.
  rewrite (split_runs_join d words false) in Hout by done.
  rewrite flat_map_pieces_short in Hout by done.
  destruct (parse_message_chunks (PyStr (join d words)) chunk_size d)
    as [chunks|e].
  - destruct Hout as [[_ Hjoins] _]. exists chunks. split; [done|].
    by apply joins_rejoin.
  - destruct Hout as [_ Hall]. lia.
Qed.

Lemma merge_loop_settled (chunk_size : nat) (delimeter : list ascii)
    (fuel : nat) :
  forall (words : list (list ascii)) (index : nat) (finished : bool)
         (out : list (list ascii)),
    (finished = true -> settled chunk_size delimeter index words) ->
    merge_loop fuel chunk_size delimeter words index finished = Ok out ->
    settled chunk_size delimeter (length out) out.
Proof.
  induction fuel as [|fuel IH]; intros words index finished out Hinv;
    [done|].
  cbn [merge_loop]. cbv zeta.
  destruct (Z.geb_spec (Z.of_nat index) (len words - 1)) as [Hend|Hmid].
  - destruct finished; cbn [andb].
    + intros [= <-]. intros j a b _ Ha Hb. apply (Hinv eq_refl j a b); [|done..].
      apply lookup_lt_Some in Hb. unfold len in Hend. lia.
    + unfold item.
      destruct (words !! 0%nat) as [a|] eqn:Ha; [|done]. cbn [bind].
      destruct (words !! (0 + 1)%nat) as [b|] eqn:Hb; [|done]. cbn [bind].
      destruct (Nat.leb_spec (length (a ++ delimeter ++ b)) chunk_size).
      * apply IH. done.
      * apply IH. intros _ j a' b' Hj Ha' Hb'.
        assert (j = 0%nat) as -> by lia.
        change (0 + 1)%nat with 1%nat in Hb. congruence.
  - cbn [andb]. unfold item.
    destruct (words !! index) as [a|] eqn:Ha; [|done]. cbn [bind].
    destruct (words !! (index + 1)%nat) as [b|] eqn:Hb; [|done]. cbn [bind].
    destruct (Nat.leb_spec (length (a ++ delimeter ++ b)) chunk_size).
    + apply IH. done.
    + apply IH. intros -> j a' b' Hj Ha' Hb'.
      destruct (Nat.eq_dec j index) as [->|].
      * rewrite Ha in Ha'. replace (S index) with (index + 1)%nat in Hb' by lia.
        rewrite Hb in Hb'. congruence.
      * apply (Hinv eq_refl j a' b'); [lia | done..].
Qed.

(** X7. No two neighbours among the returned chunks would still fit in one
    chunk with the delimiter string between them. *)
Lemma parse_message_chunks_settled (text : list ascii) (chunk_size : nat)
    (delimeter : list ascii) (chunks : list (list ascii)) :
  parse_message_chunks (PyStr text) chunk_size delimeter = Ok chunks ->
  forall (j : nat) (a b : list ascii),
    chunks !! j = Some a -> chunks !! S j = Some b ->
    (chunk_size < length (a ++ delimeter ++ b))%nat.
Proof.
  unfold parse_message_chunks. cbn [py_str].
  destruct ((chunk_size =? 0)%nat || (length text <=? chunk_size)%nat).
  { intros [= <-] j a b _ Hb. by destruct j. }
  destruct (re_split delimeter text) as [words|]; [|done]. cbn [bind].
  destruct (split_loop (split_fuel words) chunk_size words 0)
    as [units|]; [|done]. cbn [bind].
  intros Hrun j a b Ha Hb.
  assert (Hstart : true = true -> settled chunk_size delimeter 0 units)
    by (intros _ ? ? ? ?; lia).
  apply (merge_loop_settled _ _ _ _ _ _ _ Hstart Hrun j); [|done..].
  apply lookup_lt_Some in Ha. lia.
Qed.

(** ** More on [filter_string] *)

Lemma filter_string_app (self : SplitflapPrinter) (a b : list ascii)
    (replacement : ascii) :
  filter_string self (a ++ b) replacement
  = filter_string self a replacement ++ filter_string self b replacement.
Proof. rewrite !filter_string_map. apply map_app. Qed.

Lemma filter_string_displayable (self : SplitflapPrinter) (s : list ascii)
    (replacement : ascii) :
  Forall (fun c => in_character_list self c = true \/ c = replacement)
         (filter_string self s replacement).
Proof.
  rewrite filter_string_map. apply Forall_forall. intros c Hc.
  apply list_elem_of_fmap in Hc as (c0 & -> & _).
  destruct (filter_char_cases self replacement c0); auto.
Qed.

Lemma filter_string_other_case (self : SplitflapPrinter) (s : list ascii)
    (replacement : ascii) (i : nat) (c : ascii) :
  s !! i = Some c -> in_character_list self c = false -> isalpha c = true ->
  filter_string self s replacement !! i
  = Some (let other := if isupper c then lower c else upper c in
          if in_character_list self other then other else replacement).
Proof.
  intros Hi Hc Ha. rewrite filter_string_map, list_lookup_fmap, Hi. cbn.
  unfold filter_char. by rewrite Hc, Ha.
Qed.

(** ** [align_text] *)

Lemma str_eqb_eq (a b : list ascii) : str_eqb a b = true <-> a = b.
Proof. unfold str_eqb. apply bool_decide_eq_true. Qed.

Lemma str_eqb_neq (a b : list ascii) : str_eqb a b = false <-> a <> b.
Proof. unfold str_eqb. apply bool_decide_eq_false. Qed.

Lemma length_spaces (n : Z) : length (spaces n) = Z.to_nat n.
Proof. unfold spaces. apply length_replicate. Qed.

Lemma center_left_pad (marg n : Z) :
  0 <= marg -> 0 <= marg / 2 + Z.land (Z.land marg n) 1 <= marg.
Proof.
  intros Hm.
  destruct (Z.eq_dec marg 0) as [->|Hne].
  { rewrite !Z.land_0_l. change (0 / 2) with 0. lia. }
  assert (Hbit : Z.land (Z.land marg n) 1 = Z.land marg n mod 2).
  { change 1 with (Z.ones 1) at 1. by rewrite Z.land_ones. }
  pose proof (Z.mod_pos_bound (Z.land marg n) 2 ltac:(lia)) as Hmod.
  pose proof (Z.div_pos marg 2 Hm ltac:(lia)).
  destruct (Z.eq_dec marg 1) as [->|Hne1].
  { change (1 / 2) with 0 in *. lia. }
  pose proof (Z.div_lt_upper_bound marg 2 marg ltac:(lia) ltac:(lia)).
  lia.
Qed.

Lemma align_text_padding (self : SplitflapPrinter) (text align : list ascii)
    (length_arg : option nat) :
  exists l r : nat,
    align_text self text align length_arg
    = replicate l " "%char ++ text ++ replicate r " "%char
    /\ (known_align align ->
        (l + r = default (get_num_modules self) length_arg - length text)%nat)
    /\ (~ known_align align -> l = 0%nat /\ r = 0%nat).
Proof.
  unfold align_text, known_align.
  set (n := match length_arg with
            | Some n => n
            | None => get_num_modules self
            end).
  assert (Hn : default (get_num_modules self) length_arg = n)
    by (subst n; by destruct length_arg).
  rewrite Hn.
  destruct (str_eqb (str_lower align) (lit "left")) eqn:El.
  { exists 0%nat, (Z.to_nat (Z.of_nat n - len text)).
    split; [reflexivity|]. split; [unfold len; lia|].
    apply str_eqb_eq in El. tauto. }
  destruct (str_eqb (str_lower align) (lit "right")) eqn:Er.
  { exists (Z.to_nat (Z.of_nat n - len text)), 0%nat.
    split; [unfold rjust; by rewrite app_nil_r|].
    split; [unfold len; lia|]. apply str_eqb_eq in Er. tauto. }
  destruct (str_eqb (str_lower align) (lit "center")) eqn:Ec.
  { unfold center. cbv zeta.
    set (marg := Z.max 0 (Z.of_nat n - len text)).
    pose proof (center_left_pad marg (Z.of_nat n) ltac:(lia)) as Hleft.
    eexists _, _. split; [reflexivity|].
    split; [unfold len in *; lia|]. apply str_eqb_eq in Ec. tauto. }
  exists 0%nat, 0%nat. cbn. rewrite app_nil_r. split; [done|].
  apply str_eqb_neq in El, Er, Ec. split; [tauto | done].
Qed.

Lemma occurs_in_here (sub s : list ascii) :
  sub `prefix_of` s -> occurs_in sub s = true.
Proof.
  intros Hpre. destruct s; cbn [occurs_in]; by rewrite bool_decide_true.
Qed.

Lemma occurs_in_later (sub pre s : list ascii) :
  occurs_in sub s = true -> occurs_in sub (pre ++ s) = true.
Proof.
  intros Hs. induction pre as [|c pre IH]; [done|].
  cbn [app occurs_in]. rewrite IH. apply orb_true_r.
Qed.

Lemma align_text_size (self : SplitflapPrinter) (text align : list ascii)
    (length_arg : option nat) :
  (known_align align ->
   length (align_text self text align length_arg)
   = Nat.max (length text) (default (get_num_modules self) length_arg))
  /\ (~ known_align align -> align_text self text align length_arg = text)
  /\ occurs_in text (align_text self text align length_arg) = true.
Proof.
  destruct (align_text_padding self text align length_arg)
    as (l & r & -> & Hknown & Hother).
  split; [|split].
  - intros Hk. specialize (Hknown Hk).
    rewrite !length_app, !length_replicate. lia.
  - intros Hk. destruct (Hother Hk) as [-> ->]. cbn. by rewrite app_nil_r.
  - apply occurs_in_later, occurs_in_here. by apply prefix_app_r.
Qed.

(** ** [set_text], [print], [clear] *)

Lemma shows_nothing (self : SplitflapPrinter) : shows self self [].
Proof. unfold shows. by rewrite app_nil_r. Qed.

Lemma shows_more (a b c : SplitflapPrinter) (p q : list (list ascii)) :
  shows a b p -> shows b c q -> shows a c (p ++ q).
Proof.
  intros (Hn & Ho & Hc & Hd & Hs & Hl) (Hn' & Ho' & Hc' & Hd' & Hs' & Hl').
  unfold shows. rewrite Hn', Ho', Hc', Hs', Hl', Hs, Hl, app_assoc.
  repeat split; try done.
  - intros Hclosed. rewrite Hd' by congruence. by apply Hd.
  - rewrite last_app. by destruct (last q), (last p).
Qed.

Lemma shows_width (self self' : SplitflapPrinter) (pages : list (list ascii)) :
  shows self self' pages -> get_num_modules self' = get_num_modules self.
Proof.
  intros (Hn & Ho & _). unfold get_num_modules. by rewrite Hn, Ho.
Qed.

Lemma shows_rendered (self self' : SplitflapPrinter)
    (pages : list (list ascii)) (text align : list ascii) :
  shows self self' pages -> rendered self' text align = rendered self text align.
Proof.
  intros Hs. pose proof (shows_width _ _ _ Hs) as Hw.
  destruct Hs as (_ & _ & Hc & _).
  unfold rendered, align_text. rewrite Hw, !filter_string_map.
  unfold filter_char, in_character_list. by rewrite Hc.
Qed.

Lemma shows_filter (self self' : SplitflapPrinter)
    (pages : list (list ascii)) (text : list ascii) (replacement : ascii) :
  shows self self' pages ->
  filter_string self' text replacement = filter_string self text replacement.
Proof.
  intros (_ & _ & Hc & _). rewrite !filter_string_map.
  unfold filter_char, in_character_list. by rewrite Hc.
Qed.

Lemma set_text_shows (self : SplitflapPrinter) (text align : list ascii) :
  shows self (set_text self text align) [rendered self text align].
Proof.
  unfold shows, set_text, rendered. cbn. repeat split.
  intros ->. by rewrite andb_false_r.
Qed.

Lemma set_text_each (messages : list (list ascii)) (align : list ascii) :
  forall self : SplitflapPrinter,
    shows self
      (foldl (fun self message => set_text self message align) self messages)
      (map (fun message => rendered self message align) messages).
Proof.
  induction messages as [|m messages IH]; intros self; [apply shows_nothing|].
  cbn [foldl map].
  pose proof (set_text_shows self m align) as Hfirst.
  apply (shows_more _ _ _ [_] _ Hfirst).
  replace (map (fun message => rendered self message align) messages)
    with (map (fun message => rendered (set_text self m align) message align)
              messages); [apply IH|].
  apply map_ext. intros t. by apply (shows_rendered _ _ _ _ _ Hfirst).
Qed.

Lemma print_shows (self self' : SplitflapPrinter) (text : pyval)
    (align : list ascii) :
  print self text align = Ok self' ->
  exists chunks,
    parse_message_chunks text (get_num_modules self) default_delimeter
    = Ok chunks
    /\ shows self self' (map (fun m => rendered self m align) chunks).
Proof.
  unfold print.
  replace (pytype_eqb (type text) Ttype) with false by (by destruct text).
  cbn [orb].
  destruct (parse_message_chunks text (get_num_modules self)
              default_delimeter) as [chunks|]; [|done].
  cbn [bind]. intros [= <-]. exists chunks. split; [done|].
  apply set_text_each.
Qed.

Lemma parse_message_chunks_of_str (text : pyval) (chunk_size : nat)
    (delimeter : list ascii) :
  parse_message_chunks text chunk_size delimeter
  = parse_message_chunks (PyStr (py_str text)) chunk_size delimeter.
Proof. reflexivity. Qed.

Lemma parse_message_chunks_bounded (text : pyval) (chunk_size : nat)
    (delimeter : list ascii) (chunks : list (list ascii)) :
  (0 < chunk_size)%nat ->
  parse_message_chunks text chunk_size delimeter = Ok chunks ->
  Forall (fun c => (length c <= chunk_size)%nat) chunks /\ chunks <> [].
Proof.
  intros Hc. rewrite parse_message_chunks_of_str.
  set (s := py_str text).
  destruct (Nat.le_gt_cases (length s) chunk_size) as [Hshort|Hlong].
  { rewrite (parse_message_chunks_fits (PyStr s)) by done.
    intros [= <-]. split; [by repeat constructor | done]. }
  destruct delimeter as [|d0 delimeter].
  { unfold parse_message_chunks. cbn [py_str].
    destruct (Nat.eqb_spec chunk_size 0); [lia|].
    destruct (Nat.leb_spec (length s) chunk_size); [lia | done]. }
  pose proof (parse_message_chunks_long s chunk_size (d0 :: delimeter)
                ltac:(lia) ltac:(done)) as Hout.
  intros Hrun. rewrite Hrun in Hout. destruct Hout as [[Hall Hj] Hwide].
  split; [done|]. intros ->. rewrite (joins_none _ _ Hj) in Hwide.
  cbn in Hwide. lia.
Qed.

Lemma rendered_size (self : SplitflapPrinter) (text align : list ascii) :
  known_align align -> (length text <= get_num_modules self)%nat ->
  length (rendered self text align) = get_num_modules self.
Proof.
  intros Hk Hfit. unfold rendered.
  destruct (align_text_size self
              (filter_string self text default_replacement) align None)
    as [Hsize _].
  rewrite (Hsize Hk). cbn [default].
  rewrite filter_string_map, length_map. lia.
Qed.

Lemma rendered_chars (self : SplitflapPrinter) (text align : list ascii) :
  Forall (fun c => in_character_list self c = true
                   \/ c = default_replacement \/ c = " "%char)
         (rendered self text align).
Proof.
  unfold rendered.
  destruct (align_text_padding self
              (filter_string self text default_replacement) align None)
    as (l & r & -> & _).
  rewrite !Forall_app. repeat split.
  - apply Forall_forall. intros c Hc. apply elem_of_replicate in Hc. tauto.
  - eapply Forall_impl; [apply filter_string_displayable|]. cbn. tauto.
  - apply Forall_forall. intros c Hc. apply elem_of_replicate in Hc. tauto.
Qed.

Lemma print_pages (self self' : SplitflapPrinter) (text : pyval)
    (align : list ascii) :
  (0 < get_num_modules self)%nat -> known_align align ->
  print self text align = Ok self' ->
  exists pages,
    shows self self' pages /\ pages <> []
    /\ Forall (fun page => length page = get_num_modules self) pages
    /\ Forall (Forall (fun c => in_character_list self c = true
                                \/ c = default_replacement \/ c = " "%char))
              pages.
Proof.
  intros Hw Hk Hprint.
  destruct (print_shows _ _ _ _ Hprint) as (chunks & Hchunks & Hshows).
  destruct (parse_message_chunks_bounded _ _ _ _ Hw Hchunks) as [Hall Hne].
  eexists. split; [exact Hshows|]. split; [by destruct chunks|]. split.
  - apply Forall_forall. intros page Hpage.
    apply list_elem_of_fmap in Hpage as (m & -> & Hm).
    rewrite Forall_forall in Hall. apply rendered_size; [done|].
    by apply Hall.
  - apply Forall_forall. intros page Hpage.
    apply list_elem_of_fmap in Hpage as (m & -> & Hm). apply rendered_chars.
Qed.

(** X11. [clear] shows one page of as many spaces as there are modules,
    and that page is the last line. *)
Lemma clear_blank (self : SplitflapPrinter) :
  exists self',
    clear self = Ok self'
    /\ shows self self' [replicate (get_num_modules self) " "%char]
    /\ last_line self' = replicate (get_num_modules self) " "%char.
Proof.
  unfold clear. rewrite print_one_page by (cbn; lia).
  exists (set_text self [] (lit "left")).
  pose proof (set_text_shows self [] (lit "left")) as Hs.
  assert (Hblank : rendered self [] (lit "left")
                   = replicate (get_num_modules self) " "%char).
  { unfold rendered, align_text. cbn. unfold ljust, spaces, len. cbn.
    f_equal. lia. }
  rewrite Hblank in Hs. split; [done|]. split; [done|].
  by destruct Hs as (_ & _ & _ & _ & _ & ->).
Qed.

(** ** More on [get_stat_prefix] *)

Lemma find_member (P : list ascii -> bool) (l : list (list ascii))
    (p : list ascii) : find P l = Some p -> p ∈ l.
Proof.
  induction l as [|a l IH]; cbn [find]; [done|].
  destruct (P a); [intros [= <-]; left | intros H; right; by apply IH].
Qed.

Lemma last_member (l : list (list ascii)) (p : list ascii) :
  last l = Some p -> p ∈ l.
Proof.
  intros Hl. apply list_elem_of_lookup. exists (pred (length l)).
  by rewrite <- last_lookup.
Qed.

Lemma get_stat_prefix_member (self : SplitflapPrinter)
    (prefixes : prefixes_arg) (value : pyval) (label : list ascii) :
  get_stat_prefix self prefixes value = Ok (Some label) ->
  label ∈ as_sorted_list prefixes.
Proof.
  unfold get_stat_prefix.
  set (single := fun p : list ascii =>
                   (length p <=? get_num_modules self)%nat).
  set (combined := fun p : list ascii =>
                     (length (p ++ lit " " ++ py_str value)
                      <=? get_num_modules self)%nat).
  assert (Hgoal : forall l,
             match find combined l, find single l with
             | Some p, _ => Ok (Some p)
             | None, Some p => Ok (Some p)
             | None, None =>
                 match last l with
                 | Some p => Ok (Some p)
                 | None => Raise IndexError
                 end
             end = Ok (Some label) -> label ∈ l).
  { intros l.
    destruct (find combined l) eqn:Fc.
    { intros [= <-]. by apply find_member in Fc. }
    destruct (find single l) eqn:Fs.
    { intros [= <-]. by apply find_member in Fs. }
    destruct (last l) eqn:Hl; [|done].
    intros [= <-]. by apply last_member. }
  destruct prefixes as [|p|l]; [done| |].
  - destruct p as [|c p]; [done|].
    rewrite (get_stat_prefix_loop single combined). apply Hgoal.
  - rewrite (get_stat_prefix_loop single combined). apply Hgoal.
Qed.

(** X13. Without labels ([None] or the empty string) [get_stat_prefix]
    returns [None]; an empty list raises [IndexError]; a single label is
    returned whether it fits or not. *)
Lemma get_stat_prefix_edges (self : SplitflapPrinter) (value : pyval) :
  get_stat_prefix self PNone value = Ok None
  /\ get_stat_prefix self (POne []) value = Ok None
  /\ get_stat_prefix self (PList []) value = Raise IndexError
  /\ forall p, p <> [] ->
               get_stat_prefix self (POne p) value = Ok (Some p)
               /\ get_stat_prefix self (PList [p]) value = Ok (Some p).
Proof.
  split; [done|]. split; [done|]. split; [done|].
  intros p Hp.
  assert (Hone : forall prefixes,
             as_sorted_list prefixes = [p] ->
             prefixes <> PNone -> prefixes <> POne [] ->
             get_stat_prefix self prefixes value = Ok (Some p)).
  { intros prefixes Hl Hn He. unfold get_stat_prefix.
    destruct prefixes as [|q|l]; [done| |].
    - destruct q; [done|]. rewrite Hl. cbn [foldl].
      destruct (length p <=? get_num_modules self)%nat;
        destruct (length (p ++ lit " " ++ py_str value)
                  <=? get_num_modules self)%nat; done.
    - rewrite Hl. cbn [foldl].
      destruct (length p <=? get_num_modules self)%nat;
        destruct (length (p ++ lit " " ++ py_str value)
                  <=? get_num_modules self)%nat; done. }
  split; apply Hone; try done.
  intros [= ->]. done.
Qed.

(** ** [already_displaying_prefix] *)

Lemma occurs_in_middle (sub a b : list ascii) :
  occurs_in sub (a ++ sub ++ b) = true.
Proof. apply occurs_in_later, occurs_in_here. by apply prefix_app_r. Qed.

Lemma occurs_in_trans (sub a b : list ascii) (outer : list ascii) :
  occurs_in (a ++ sub ++ b) outer = true -> occurs_in sub outer = true.
Proof.
  induction outer as [|c outer IH].
  - cbn [occurs_in]. rewrite !orb_false_r. intros H%bool_decide_eq_true.
    destruct H as [k Hk]. destruct a; [|done]. destruct sub; [|done].
    by rewrite bool_decide_true by apply prefix_nil.
  - change (occurs_in (a ++ sub ++ b) (c :: outer))
      with (bool_decide ((a ++ sub ++ b) `prefix_of` c :: outer)
            || occurs_in (a ++ sub ++ b) outer).
    intros [Hhere%bool_decide_eq_true | Hlater]%orb_true_iff.
    + destruct Hhere as [k Hk]. rewrite Hk, <- !app_assoc.
      apply occurs_in_middle.
    + cbn [occurs_in]. rewrite (IH Hlater). apply orb_true_r.
Qed.

Lemma label_on_display (self self' : SplitflapPrinter)
    (pages : list (list ascii)) (a label b align : list ascii)
    (labels : list (list ascii)) :
  shows self self' (pages ++ [rendered self (a ++ label ++ b) align]) ->
  serial_isOpen self = false -> label ∈ labels ->
  already_displaying_prefix self' (Some labels) = true.
Proof.
  intros Hs Hclosed Hin.
  pose proof Hs as (_ & Ho & _ & _ & _ & Hl).
  rewrite last_snoc in Hl. cbn [default] in Hl.
  unfold already_displaying_prefix, get_text.
  rewrite Ho, Hclosed. cbn [negb]. rewrite Hl.
  apply existsb_exists. exists label. split; [by apply list_elem_of_In|].
  rewrite (shows_filter _ _ _ _ _ Hs).
  unfold rendered. rewrite !filter_string_app.
  eapply occurs_in_trans.
  apply (proj2 (proj2 (align_text_size self _ align None))).
Qed.

Lemma already_displaying_edges (self : SplitflapPrinter)
    (labels : list (list ascii)) :
  already_displaying_prefix self None = false
  /\ already_displaying_prefix self (Some []) = false
  /\ ([] ∈ labels -> already_displaying_prefix self (Some labels) = true).
Proof.
  split; [done|]. split; [done|]. intros Hin.
  unfold already_displaying_prefix. apply existsb_exists. exists [].
  split; [by apply list_elem_of_In|].
  apply occurs_in_here, prefix_nil.
Qed.

(** ** More on [print_stat] *)

Lemma print_stat_together (self : SplitflapPrinter) (prefixes : prefixes_arg)
    (value : pyval) (align : list ascii) (two_step : bool)
    (shown_value label : list ascii) :
  filter_number self value = Ok shown_value ->
  get_stat_prefix self prefixes (PyStr shown_value) = Ok (Some label) ->
  label <> [] ->
  (length (combined_str self label shown_value align)
   <= get_num_modules self)%nat ->
  (length (label ++ lit " " ++ shown_value) <= get_num_modules self)%nat ->
  exists self',
    print_stat self prefixes value align two_step = Ok self'
    /\ shows self self'
         ((if two_step
              && negb (already_displaying_prefix self (seen_prefixes prefixes))
           then [rendered self label (invert_align align)] else [])
          ++ [rendered self (combined_str self label shown_value align) align]).
Proof.
  intros Hvalue Hprefix Hlabel Hcomb Hfit.
  unfold print_stat. rewrite Hvalue. cbn [bind]. rewrite Hprefix. cbn [bind].
  destruct label as [|c label]; [done|].
  destruct (Nat.leb_spec (length ((c :: label) ++ lit " " ++ shown_value))
              (get_num_modules self)); [|lia].
  assert (Hl : (length (c :: label) <= get_num_modules self)%nat)
    by (rewrite length_app in Hfit; lia).
  destruct (two_step
            && negb (already_displaying_prefix self (seen_prefixes prefixes))).
  - rewrite print_one_page by done. cbn [bind].
    set (self1 := set_text self (c :: label) (invert_align align)).
    pose proof (set_text_shows self (c :: label) (invert_align align))
      as Hfirst. fold self1 in Hfirst.
    assert (Hw : get_num_modules self1 = get_num_modules self) by done.
    rewrite Hw. fold (combined_str self (c :: label) shown_value align).
    rewrite print_one_page by (by rewrite Hw).
    eexists. split; [done|].
    apply (shows_more _ _ _ _ _ Hfirst).
    rewrite <- (shows_rendered _ _ _ _ _ Hfirst). apply set_text_shows.
  - cbn [bind]. fold (combined_str self (c :: label) shown_value align).
    rewrite print_one_page by done. eexists. split; [done|].
    apply set_text_shows.
Qed.

Lemma combined_str_fills (self : SplitflapPrinter)
    (label value align : list ascii) :
  (length (label ++ lit " " ++ value) <= get_num_modules self)%nat ->
  (align = lit "right" ->
   combined_str self label value align
   = label ++ replicate (get_num_modules self - length label - length value)
                " "%char ++ value)
  /\ (align = lit "left" ->
      combined_str self label value align
      = value ++ replicate (get_num_modules self - length label - length value)
                   " "%char ++ label)
  /\ (align = lit "left" \/ align = lit "right" ->
      length (combined_str self label value align) = get_num_modules self)
  /\ (length (combined_str self label value align)
      <= get_num_modules self)%nat
  /\ exists a b, combined_str self label value align = a ++ label ++ b.
Proof.
  intros Hfit. rewrite !length_app in Hfit. cbn [length lit] in Hfit.
  change (length (list_ascii_of_string " ")) with 1%nat in Hfit.
  unfold combined_str, ljust, rjust, spaces, len.
  set (k := (get_num_modules self - length label - length value)%nat).
  replace (Z.to_nat (Z.of_nat (get_num_modules self) - Z.of_nat (length value)
                     - Z.of_nat (length label))) with k by lia.
  assert (Hright : lit "right" <> lit "left") by done.
  split; [|split; [|split; [|split]]].
  - intros ->. rewrite (proj2 (str_eqb_neq _ _) Hright).
    rewrite (proj2 (str_eqb_eq _ _) eq_refl). by rewrite <- app_assoc.
  - intros ->. by rewrite (proj2 (str_eqb_eq _ _) eq_refl).
  - intros [-> | ->].
    + rewrite (proj2 (str_eqb_eq _ _) eq_refl).
      rewrite !length_app, length_replicate. lia.
    + rewrite (proj2 (str_eqb_neq _ _) Hright).
      rewrite (proj2 (str_eqb_eq _ _) eq_refl).
      rewrite !length_app, length_replicate. lia.
  - destruct (str_eqb align (lit "left"));
      [|destruct (str_eqb align (lit "right"))];
      rewrite !length_app, ?length_replicate; cbn [length lit];
      change (length (list_ascii_of_string " ")) with 1%nat; lia.
  - destruct (str_eqb align (lit "left"));
      [|destruct (str_eqb align (lit "right"))].
    + eexists (value ++ replicate k " "%char), []. by rewrite <- !app_assoc, app_nil_r.
    + eexists [], (replicate k " "%char ++ value). by rewrite <- !app_assoc.
    + eexists (value ++ lit " "), []. by rewrite <- !app_assoc, app_nil_r.
Qed.

(** ** [add_tracker], [remove_tracker] *)

(** X16. [add_tracker] leaves the tracker in the collection, keeps the
    others, never holds a tracker twice, and adding again changes
    nothing. *)
Lemma add_tracker_once {A} `{EqDecision A} (tracker : A) (l : list A) :
  tracker ∈ add_tracker tracker l
  /\ (NoDup l -> NoDup (add_tracker tracker l))
  /\ add_tracker tracker (add_tracker tracker l) = add_tracker tracker l
  /\ (forall other, other ∈ l -> other ∈ add_tracker tracker l).
Proof.
  unfold add_tracker.
  destruct (bool_decide_reflect (tracker ∈ l)) as [Hin|Hout].
  - rewrite bool_decide_true by done. done.
  - assert (Hnew : tracker ∈ l ++ [tracker])
      by (apply elem_of_app; right; left).
    rewrite bool_decide_true by done. split; [done|]. split; [|split; [done|]].
    + intros Hl. apply NoDup_app. split; [done|]. split.
      * intros x Hx Hx'. apply list_elem_of_singleton in Hx' as ->. done.
      * apply NoDup_singleton.
    + intros other Ho. apply elem_of_app. by left.
Qed.

Lemma list_remove_absent {A} `{EqDecision A} (x : A) (l : list A) :
  list_remove x l = None <-> x ∉ l.
Proof.
  induction l as [|y l IH]; cbn [list_remove].
  - split; [intros _; apply not_elem_of_nil | done].
  - destruct (bool_decide_reflect (x = y)) as [->|Hne].
    + split; [done|]. intros Hno. exfalso. apply Hno. left.
    + rewrite not_elem_of_cons. destruct (list_remove x l).
      * split; [done|]. intros [_ Hno]. by apply IH in Hno.
      * split; [|done]. intros _. split; [done|]. by apply IH.
Qed.

Lemma list_remove_last {A} `{EqDecision A} (x : A) (l : list A) :
  x ∉ l -> list_remove x (l ++ [x]) = Some l.
Proof.
  induction l as [|y l IH]; intros Hno.
  - cbn. by rewrite bool_decide_true.
  - apply not_elem_of_cons in Hno as [Hne Hno]. cbn [app list_remove].
    rewrite bool_decide_false by done. by rewrite IH.
Qed.

(** X17. [remove_tracker] undoes [add_tracker] of a tracker that was not
    in the collection, and raises exactly for a tracker that is not in
    it. *)
Lemma remove_tracker_undoes_add {A} `{EqDecision A} (tracker : A)
    (l : list A) :
  (tracker ∉ l ->
   remove_tracker tracker (add_tracker tracker l) = Some l)
  /\ (remove_tracker tracker l = None <-> tracker ∉ l).
Proof.
  split; [|apply list_remove_absent].
  intros Hno. unfold remove_tracker, add_tracker.
  rewrite bool_decide_false by done. by apply list_remove_last.
Qed.

(** ** More on [get_sleep_time] *)

Lemma updated_or_not (objs : list YouTubeStatTracker) :
  (forall obj, obj ∈ objs -> next_update obj <> None)
  \/ (exists obj, obj ∈ objs /\ last_update obj = None).
Proof.
  induction objs as [|o objs [IH|(x & Hx & Hn)]].
  - left. intros obj Hobj. by apply elem_of_nil in Hobj.
  - destruct (last_update o) as [t|] eqn:Ht.
    + left. intros obj Hobj. apply elem_of_cons in Hobj as [->|Hobj].
      * unfold next_update. by rewrite Ht.
      * by apply IH.
    + right. exists o. split; [left | done].
  - right. exists x. split; [by right | done].
Qed.

(** X18. A delay [get_sleep_time] returns is never negative; it is zero
    for no trackers; otherwise some tracker is due once the delay has
    passed, and when the delay is positive none is due before. *)
Lemma get_sleep_time_next (stat_objects : list YouTubeStatTracker)
    (now delay : Z) :
  get_sleep_time stat_objects now = Ok delay ->
  0 <= delay
  /\ (stat_objects = [] -> delay = 0)
  /\ (stat_objects <> [] ->
      (exists obj t,
         obj ∈ stat_objects /\ next_update obj = Some t /\ t <= now + delay)
      /\ (0 < delay ->
          forall obj t, obj ∈ stat_objects -> next_update obj = Some t ->
                        now + delay <= t)).
Proof.
  intros Hrun. destruct (updated_or_not stat_objects) as [Hall|Hnever].
  2: { unfold get_sleep_time in Hrun.
       by rewrite soonest_update_never in Hrun. }
  unfold get_sleep_time in Hrun.
  destruct (soonest_update_min stat_objects None Hall)
    as (r & Hr & Hfrom & _ & Hmin).
  rewrite Hr in Hrun. cbn [bind] in Hrun.
  destruct stat_objects as [|obj0 objs].
  { cbn in Hr. injection Hr as <-. injection Hrun as <-. done. }
  assert (exists t0, next_update obj0 = Some t0) as [t0 Ht0].
  { specialize (Hall obj0 ltac:(left)).
    destruct (next_update obj0); [by eexists | done]. }
  destruct (Hmin obj0 t0 ltac:(left) Ht0) as (m & -> & _).
  injection Hrun as <-. split; [lia|]. split; [done|]. intros _. split.
  - destruct Hfrom as [? | (o & Ho & Hm)]; [done|].
    exists o, m. split; [done|]. split; [done | lia].
  - intros Hpos obj t Hobj Ht.
    destruct (Hmin obj t Hobj Ht) as (m' & [= <-] & ?). lia.
Qed.

(** ** [SubscriberCounter.run] *)

Lemma SubscriberCounter_fetch_base (response : option Z)
    (self : SubscriberCounter) :
  base (snd (SubscriberCounter_fetch response self)) = base self
  /\ sub_prefixes (snd (SubscriberCounter_fetch response self))
     = sub_prefixes self
  /\ (response = None -> SubscriberCounter_fetch response self = (false, self)).
Proof. by destruct response. Qed.

Lemma SubscriberCounter_run_timer (response : option Z) (now : Z)
    (self self' : SubscriberCounter) (display display' : SplitflapPrinter) :
  SubscriberCounter_run response now self display = Ok (self', display') ->
  update_rate (base self') = update_rate (base self)
  /\ last_update (base self') <> None
  /\ (due base now self = false -> self' = self /\ display' = display)
  /\ (due base now self = true ->
      last_update (base self') = Some now
      /\ (response = None ->
          display' = display /\ subs self' = subs self
          /\ diff self' = diff self)).
Proof.
  unfold SubscriberCounter_run, run.
  destruct (due base now self) eqn:Hdue; cbn [negb].
  2: { intros [= <- <-]. split; [done|]. split; [|done].
       unfold due in Hdue. by destruct (last_update (base self)). }
  unfold update. destruct response as [new_subs|].
  - cbn [SubscriberCounter_fetch].
    destruct (SubscriberCounter_show _ display) as [shown|]; [|done].
    cbn [bind]. intros [= <- <-]. cbn. done.
  - cbn [SubscriberCounter_fetch]. intros [= <- <-]. cbn. done.
Qed.

(** X20. After a run that was due, a run before the update rate has
    passed changes nothing, whatever the response would be. *)
Lemma SubscriberCounter_run_again (response response' : option Z)
    (now now' : Z) (self self' : SubscriberCounter)
    (display display' : SplitflapPrinter) :
  due base now self = true ->
  SubscriberCounter_run response now self display = Ok (self', display') ->
  now' < now + update_rate (base self) ->
  forall display0,
    SubscriberCounter_run response' now' self' display0 = Ok (self', display0).
Proof.
  intros Hdue Hrun Hsoon display0.
  destruct (SubscriberCounter_run_timer _ _ _ _ _ _ Hrun)
    as (Hrate & _ & _ & Hupd).
  destruct (Hupd Hdue) as [Hlast _].
  unfold SubscriberCounter_run, run, due. rewrite Hlast, Hrate.
  destruct (Z.geb_spec now' (now + update_rate (base self))); [lia | done].
Qed.

(** ** Pages that fill the display *)

Lemma known_align_inverted (align : list ascii) :
  known_align align -> known_align (invert_align align).
Proof.
  intros Hk. unfold invert_align.
  destruct (str_eqb align (lit "left")); [right; by left|].
  destruct (str_eqb align (lit "right")); [by left | done].
Qed.

Lemma shows_full_pages_then (a b c : SplitflapPrinter) :
  shows_full_pages a b -> shows_full_pages b c -> shows_full_pages a c.
Proof.
  intros (p & Hp & Hne & Hlen & Hch) (q & Hq & _ & Hlen' & Hch').
  exists (p ++ q). split; [by apply (shows_more a b c)|].
  split; [by destruct p|].
  rewrite (shows_width _ _ _ Hp) in Hlen'.
  destruct Hp as (_ & _ & Hc & _).
  unfold in_character_list in *. rewrite Hc in Hch'.
  split; by apply Forall_app.
Qed.

Lemma print_full_pages (self self' : SplitflapPrinter) (text : pyval)
    (align : list ascii) :
  (0 < get_num_modules self)%nat -> known_align align ->
  print self text align = Ok self' -> shows_full_pages self self'.
Proof. intros Hw Hk Hprint. by apply (print_pages self self' text align). Qed.

Lemma shows_full_pages_width (a b : SplitflapPrinter) :
  shows_full_pages a b -> get_num_modules b = get_num_modules a.
Proof. intros (p & Hp & _). by apply (shows_width _ _ _ Hp). Qed.

Lemma print_stat_full_pages (self self' : SplitflapPrinter)
    (prefixes : prefixes_arg) (value : pyval) (align : list ascii)
    (two_step : bool) :
  (0 < get_num_modules self)%nat -> known_align align ->
  print_stat self prefixes value align two_step = Ok self' ->
  shows_full_pages self self'.
Proof.
  intros Hw Hk. unfold print_stat.
  destruct (filter_number self value) as [v|]; [|done]. cbn [bind].
  destruct (get_stat_prefix self prefixes (PyStr v)) as [prefix|]; [|done].
  cbn [bind].
  assert (Hstep : forall (flash : bool) (label last : list ascii),
             (let* self0 :=
                if flash then print self (PyStr label) (invert_align align)
                else Ok self in
              print self0 (PyStr last) align) = Ok self' ->
             shows_full_pages self self').
  { intros flash label last. destruct flash.
    - destruct (print self (PyStr label) (invert_align align))
        as [self0|] eqn:Hfirst; [|done]. cbn [bind]. intros Hsecond.
      apply print_full_pages in Hfirst;
        [|done | by apply known_align_inverted].
      apply (shows_full_pages_then _ _ _ Hfirst).
      apply (print_full_pages _ _ _ _ ltac:(by rewrite
               (shows_full_pages_width _ _ Hfirst)) Hk Hsecond).
    - cbn [bind]. by apply print_full_pages. }
  destruct prefix as [[|c label]|]; try by apply print_full_pages.
  destruct (length ((c :: label) ++ lit " " ++ v) <=? get_num_modules self)%nat.
  - destruct (two_step && negb _) eqn:Hflash.
    + destruct (print self (PyStr (c :: label)) (invert_align align))
        as [self0|] eqn:Hfirst; [|done]. cbn [bind]. intros Hsecond.
      apply print_full_pages in Hfirst;
        [|done | by apply known_align_inverted].
      apply (shows_full_pages_then _ _ _ Hfirst).
      apply (print_full_pages _ _ _ _ ltac:(by rewrite
               (shows_full_pages_width _ _ Hfirst)) Hk Hsecond).
    + cbn [bind]. by apply print_full_pages.
  - apply (Hstep two_step).
Qed.

Lemma known_right : known_align (lit "right").
Proof. right. by left. Qed.

Lemma known_left : known_align (lit "left").
Proof. by left. Qed.

(** X22. [show] shows nothing without a count; with one, everything it
    shows is in pages that fill the display. *)
Lemma SubscriberCounter_show_pages (self : SubscriberCounter)
    (display display' : SplitflapPrinter) :
  (0 < get_num_modules display)%nat ->
  SubscriberCounter_show self display = Ok display' ->
  (subs self = None /\ display' = display)
  \/ (subs self <> None /\ shows_full_pages display display').
Proof.
  intros Hw. unfold SubscriberCounter_show.
  destruct (subs self) as [count|]; [|intros [= <-]; by left].
  intros Hshow. right. split; [done|].
  destruct ((diff self >? 0) && show_diff self).
  - destruct (print_stat display (sub_prefixes self)
                (PyStr (lit "+" ++ str_of_int (diff self))) (lit "right") true)
      as [display0|] eqn:Hfirst; [|done].
    cbn [bind] in Hshow.
    apply print_stat_full_pages in Hfirst; [|done | apply known_right].
    apply (shows_full_pages_then _ _ _ Hfirst).
    apply (print_stat_full_pages _ _ _ _ _ _
             ltac:(by rewrite (shows_full_pages_width _ _ Hfirst))
             known_right Hshow).
  - cbn [bind] in Hshow.
    by apply (print_stat_full_pages _ _ _ _ _ _ Hw known_right Hshow).
Qed.

(** X23. [ChannelStats.fetch] succeeds exactly when both counts are in the
    response. Without the view count nothing is stored; a view count is
    stored even when the video count is missing and the fetch fails. *)
Lemma ChannelStats_fetch_counts (viewCount videoCount : option Z)
    (self : ChannelStats) :
  let '(fetched, self') := ChannelStats_fetch viewCount videoCount self in
  channel_base self' = channel_base self
  /\ (fetched = true <-> viewCount <> None /\ videoCount <> None)
  /\ (fetched = true ->
      view_count self' = viewCount /\ video_count self' = videoCount)
  /\ (viewCount = None -> self' = self)
  /\ (videoCount = None -> video_count self' = video_count self)
  /\ (forall views, viewCount = Some views -> view_count self' = Some views).
Proof.
  destruct viewCount, videoCount; cbn; repeat split; try done;
    try (by intros [? ?]); by intros ? [= <-].
Qed.

Lemma ChannelStats_show_pages (channel_title : list ascii)
    (self : ChannelStats) (display display' : SplitflapPrinter) :
  (0 < get_num_modules display)%nat ->
  ChannelStats_show channel_title self display = Ok display' ->
  ((view_count self = None \/ video_count self = None) /\ display' = display)
  \/ (view_count self <> None /\ video_count self <> None
      /\ shows_full_pages display display').
Proof.
  intros Hw. unfold ChannelStats_show.
  destruct (view_count self) as [views|];
    [|intros [= <-]; left; split; [by left | done]].
  destruct (video_count self) as [videos|];
    [|intros [= <-]; left; split; [by right | done]].
  intros Hshow. right. split; [done|]. split; [done|].
  destruct (print display (PyStr (lit "Channel")) (lit "left"))
    as [d1|] eqn:H1; [|done]. cbn [bind] in Hshow.
  destruct (print d1 (PyStr channel_title) (lit "left"))
    as [d2|] eqn:H2; [|done]. cbn [bind] in Hshow.
  destruct (print_stat d2 (POne (lit "Views")) (PyInt views) (lit "right")
              true) as [d3|] eqn:H3; [|done]. cbn [bind] in Hshow.
  apply print_full_pages in H1; [|done | apply known_left].
  pose proof (shows_full_pages_width _ _ H1) as W1.
  apply print_full_pages in H2; [|lia | apply known_left].
  pose proof (shows_full_pages_width _ _ H2) as W2.
  apply print_stat_full_pages in H3; [|lia | apply known_right].
  pose proof (shows_full_pages_width _ _ H3) as W3.
  apply print_stat_full_pages in Hshow; [|lia | apply known_right].
  eauto using shows_full_pages_then.
Qed.

(** ** [RecentVideoStats.fetch] *)

Section RecentVideoFetch.
Variable strptime : list ascii -> option Z.

(** X24. When [fetch] returns, the time of last update and the two
    configured rates are as before. With a key missing in the response it
    returns [False] and leaves the rate alone. With all keys present the
    timestamp, the video and the title are stored and the timestamp was
    read; [fetch] returns [True] exactly for a video published after the
    cutoff, and the tracker then runs at the rate for statistics, and
    otherwise at the rate for videos. *)
Lemma RecentVideoStats_fetch_rates (response : playlist_item) (now : Z)
    (self self' : RecentVideoStats) (new_video : bool) :
  RecentVideoStats_fetch strptime response now self = Returned new_video self' ->
  last_update (recent_base self') = last_update (recent_base self)
  /\ update_rate_videos self' = update_rate_videos self
  /\ update_rate_stats self' = update_rate_stats self
  /\ (videoPublishedAt response = None \/ videoId response = None
      \/ title response = None ->
      new_video = false /\ recent_base self' = recent_base self)
  /\ (forall timestamp video t : list ascii,
        videoPublishedAt response = Some timestamp ->
        videoId response = Some video -> title response = Some t ->
        latest_timestamp self' = Some timestamp
        /\ latest_video self' = Some video
        /\ video_title self' = Some t
        /\ exists video_time,
             strptime timestamp = Some video_time
             /\ new_video = (video_time >? now - recent_window self)
             /\ update_rate (recent_base self')
                = if new_video then update_rate_stats self
                  else update_rate_videos self).
Proof.
  unfold RecentVideoStats_fetch.
  assert (Hmissing : forall s : RecentVideoStats,
             recent_base s = recent_base self ->
             update_rate_videos s = update_rate_videos self ->
             update_rate_stats s = update_rate_stats self ->
             Returned false s = Returned new_video self' ->
             last_update (recent_base self') = last_update (recent_base self)
             /\ update_rate_videos self' = update_rate_videos self
             /\ update_rate_stats self' = update_rate_stats self
             /\ new_video = false /\ recent_base self' = recent_base self).
  { intros s Hb Hv Hs [= <- <-]. by rewrite Hb. }
  destruct (videoPublishedAt response) as [timestamp|].
  2:{ intros Hrun.
      apply Hmissing in Hrun as (H1 & H2 & H3 & H4 & H5); [|done..].
      split; [done|]. split; [done|]. split; [done|]. split; [done|].
      intros ? ? ? [=]. }
  destruct (videoId response) as [video|].
  2:{ intros Hrun.
      apply Hmissing in Hrun as (H1 & H2 & H3 & H4 & H5); [|done..].
      split; [done|]. split; [done|]. split; [done|]. split; [done|].
      intros ? ? ? _ [=]. }
  destruct (title response) as [t|].
  2:{ intros Hrun.
      apply Hmissing in Hrun as (H1 & H2 & H3 & H4 & H5); [|done..].
      split; [done|]. split; [done|]. split; [done|]. split; [done|].
      intros ? ? ? _ _ [=]. }
  cbv zeta. destruct (strptime timestamp) as [video_time|] eqn:Hparse;
    [|done].
  change (recent_window (set_latest _ _ _ _)) with (recent_window self).
  destruct (video_time >? now - recent_window self) eqn:Hnew.
  - intros [= <- <-].
    split; [done|]. split; [done|]. split; [done|].
    split; [intros [[=]|[[=]|[=]]]|].
    intros ? ? ? [= <-] [= <-] [= <-].
    split; [done|]. split; [done|]. split; [done|].
    exists video_time. by rewrite Hparse, Hnew.
  - intros [= <- <-].
    split; [done|]. split; [done|]. split; [done|].
    split; [intros [[=]|[[=]|[=]]]|].
    intros ? ? ? [= <-] [= <-] [= <-].
    split; [done|]. split; [done|]. split; [done|].
    exists video_time. by rewrite Hparse, Hnew.
Qed.

(** X25. With all keys present and a timestamp that does not read, [fetch]
    does not return [False]: it raises [UnboundLocalError], after it has
    set the rate for videos. *)
Lemma RecentVideoStats_fetch_unbound (response : playlist_item) (now : Z)
    (self : RecentVideoStats) (timestamp video t : list ascii) :
  videoPublishedAt response = Some timestamp ->
  videoId response = Some video -> title response = Some t ->
  strptime timestamp = None ->
  exists self',
    RecentVideoStats_fetch strptime response now self = UnboundLocalError self'
    /\ update_rate (recent_base self') = update_rate_videos self
    /\ latest_video self' = Some video.
Proof.
  intros Hts Hid Ht Hparse. unfold RecentVideoStats_fetch.
  rewrite Hts, Hid, Ht. cbv zeta. rewrite Hparse. eexists. by split.
Qed.
End RecentVideoFetch.

(** ** The serial ports *)

Lemma str_leb_total (a b : list ascii) :
  str_leb a b = false -> str_leb b a = true.
Proof.
  revert b. induction a as [|x a IH]; intros [|y b]; cbn [str_leb]; try done.
  destruct (Nat.ltb_spec (nat_of_ascii x) (nat_of_ascii y)); [done|].
  destruct (Nat.ltb_spec (nat_of_ascii y) (nat_of_ascii x)); [done|].
  apply IH.
Qed.

Lemma str_leb_trans (a b c : list ascii) :
  str_leb a b = true -> str_leb b c = true -> str_leb a c = true.
Proof.
  revert b c. induction a as [|x a IH]; intros [|y b] [|z c]; cbn [str_leb];
    try done.
  destruct (Nat.ltb_spec (nat_of_ascii x) (nat_of_ascii y));
    destruct (Nat.ltb_spec (nat_of_ascii y) (nat_of_ascii x));
    destruct (Nat.ltb_spec (nat_of_ascii y) (nat_of_ascii z));
    destruct (Nat.ltb_spec (nat_of_ascii z) (nat_of_ascii y));
    destruct (Nat.ltb_spec (nat_of_ascii x) (nat_of_ascii z));
    destruct (Nat.ltb_spec (nat_of_ascii z) (nat_of_ascii x));
    try done; try lia.
  apply IH.
Qed.

Lemma insert_by_device_perm (p : ListPortInfo) (l : list ListPortInfo) :
  Permutation (insert_by_device p l) (p :: l).
Proof.
  induction l as [|q l IH]; cbn [insert_by_device]; [done|].
  destruct (str_leb (device p) (device q)); [done|].
  rewrite IH. apply perm_swap.
Qed.

Lemma insert_by_device_sorted (p : ListPortInfo) (l : list ListPortInfo) :
  StronglySorted by_device l -> StronglySorted by_device (insert_by_device p l).
Proof.
  induction 1 as [|q l Hl IH Hq]; cbn [insert_by_device].
  - repeat constructor.
  - destruct (str_leb (device p) (device q)) eqn:Hpq.
    + constructor; [by constructor|]. constructor; [done|].
      eapply Forall_impl; [exact Hq|]. intros r Hr.
      by apply (str_leb_trans _ (device q)).
    + constructor; [done|].
      rewrite insert_by_device_perm. constructor; [|done].
      by apply str_leb_total.
Qed.

(** X26. The list of ports is sorted by device and holds exactly the ports
    whose description is not "n/a". *)
Lemma get_serial_port_list_sorted (comports : list ListPortInfo) :
  StronglySorted by_device (get_serial_port_list comports)
  /\ Permutation (get_serial_port_list comports)
       (List.filter (fun p => negb (str_eqb (description p) (lit "n/a")))
          comports)
  /\ forall port,
       port ∈ get_serial_port_list comports <->
       port ∈ comports /\ description port <> lit "n/a".
Proof.
  unfold get_serial_port_list.
  set (l := List.filter _ comports).
  assert (Hperm : Permutation (foldr insert_by_device [] l) l).
  { induction l as [|p l IH]; [done|]. cbn [foldr].
    by rewrite insert_by_device_perm, IH. }
  split; [|split; [done|]].
  - clear Hperm. induction l as [|p l IH]; [constructor|].
    by apply insert_by_device_sorted.
  - intros port. rewrite Hperm. subst l.
    rewrite !list_elem_of_In, filter_In, negb_true_iff, str_eqb_neq. done.
Qed.

Lemma find_first_match {A} (P : A -> bool) (l : list A) :
  match find P l with
  | Some x => x ∈ l /\ P x = true
  | None => forall x, x ∈ l -> P x = false
  end.
Proof.
  induction l as [|a l IH]; cbn [find].
  - intros x Hx. by apply elem_of_nil in Hx.
  - destruct (P a) eqn:Pa; [split; [left | done]|].
    destruct (find P l).
    + destruct IH. split; [by right | done].
    + intros x Hx. apply elem_of_cons in Hx as [->|Hx]; [done | by apply IH].
Qed.

Lemma port_at_in_range (ports : list ListPortInfo) (index : Z)
    (out : option (list ascii)) :
  (1 <= index <= len ports ->
   exists port, ports !! Z.to_nat (index - 1) = Some port
                /\ port_at ports index out = Some (device port))
  /\ (~ 1 <= index <= len ports -> port_at ports index out = out).
Proof.
  unfold port_at, len. split.
  - intros Hin.
    destruct (Z.geb_spec (Z.of_nat (length ports)) index); [|lia].
    destruct (Z.gtb_spec index 0); [|lia]. cbn [andb].
    destruct (lookup_lt_is_Some_2 ports (Z.to_nat (index - 1)) ltac:(lia))
      as [port Hport].
    exists port. by rewrite Hport.
  - intros Hout.
    destruct (Z.geb_spec (Z.of_nat (length ports)) index);
      destruct (Z.gtb_spec index 0); cbn [andb]; try done. lia.
Qed.

Lemma first_port_listed (ports : list ListPortInfo)
    (out : option (list ascii)) :
  (forall d, out = Some d -> exists port, port ∈ ports /\ device port = d) ->
  (first_port ports out = None <-> ports = [])
  /\ forall d, first_port ports out = Some d ->
               exists port, port ∈ ports /\ device port = d.
Proof.
  intros Hout. unfold first_port. destruct out as [d0|].
  - destruct (Hout d0 eq_refl) as (port & Hport & Hd). split.
    + split; [done|]. intros ->. by apply elem_of_nil in Hport.
    + intros d [= <-]. by exists port.
  - destruct ports as [|port ports]; [done|]. split; [done|].
    intros d [= <-]. exists port. split; [left | done].
Qed.

Lemma port_at_listed (ports : list ListPortInfo) (index : Z)
    (out : option (list ascii)) :
  (forall d, out = Some d -> exists port, port ∈ ports /\ device port = d) ->
  forall d, port_at ports index out = Some d ->
            exists port, port ∈ ports /\ device port = d.
Proof.
  intros Hout d. destruct (port_at_in_range ports index out) as [Hin Hno].
  destruct (Z_le_dec 1 index) as [H1|H1];
    [destruct (Z_le_dec index (len ports)) as [H2|H2]|].
  - destruct (Hin ltac:(lia)) as (port & Hport & ->). intros [= <-].
    exists port. split; [|done]. apply list_elem_of_lookup. eauto.
  - rewrite Hno by lia. apply Hout.
  - rewrite Hno by lia. apply Hout.
Qed.

Lemma get_serial_port_steps (comports : list ListPortInfo)
    (key : option pyval) :
  get_serial_port comports key
  = let ports := get_serial_port_list comports in
    first_port ports
      match key with
      | Some (PyStr k) =>
          match
            find (fun port =>
                    str_eqb (device port) k || str_eqb (name port) k) ports
          with
          | Some port => Some (device port)
          | None =>
              match int_of_str k with
              | Some index => port_at ports index None
              | None => None
              end
          end
      | Some (PyInt index) => port_at ports index None
      | None => None
      end.
Proof.
  unfold get_serial_port, first_port, port_at. cbv zeta.
  destruct key as [[index|k]|]; try done.
  destruct (find _ (get_serial_port_list comports)); [done|].
  by destruct (int_of_str k).
Qed.

(** X27. [get_serial_port] returns [None] only when no port is listed, and
    what it returns is always the device of a listed port. *)
Lemma get_serial_port_listed (comports : list ListPortInfo)
    (key : option pyval) :
  (get_serial_port comports key = None <-> get_serial_port_list comports = [])
  /\ forall d, get_serial_port comports key = Some d ->
               exists port,
                 port ∈ get_serial_port_list comports /\ device port = d.
Proof.
  rewrite get_serial_port_steps. cbv zeta. apply first_port_listed.
  destruct key as [[index|k]|]; [| |done].
  - by apply port_at_listed.
  - pose proof (find_first_match
                  (fun port => str_eqb (device port) k || str_eqb (name port) k)
                  (get_serial_port_list comports)) as Hfind.
    destruct (find _ (get_serial_port_list comports)) as [port|].
    + intros d [= <-]. exists port. by destruct Hfind.
    + destruct (int_of_str k); [by apply port_at_listed | done].
Qed.

(** X28. A string that is the device or the name of a listed port selects
    a port of that device or name. *)
Lemma get_serial_port_named (comports : list ListPortInfo) (k : list ascii) :
  (exists port, port ∈ get_serial_port_list comports
                /\ (device port = k \/ name port = k)) ->
  exists port,
    port ∈ get_serial_port_list comports
    /\ (device port = k \/ name port = k)
    /\ get_serial_port comports (Some (PyStr k)) = Some (device port).
Proof.
  intros (port & Hport & Hk). rewrite get_serial_port_steps. cbv zeta.
  pose proof (find_first_match
                (fun port => str_eqb (device port) k || str_eqb (name port) k)
                (get_serial_port_list comports)) as Hfind.
  destruct (find _ (get_serial_port_list comports)) as [found|].
  - destruct Hfind as [Hin Hmatch]. exists found. split; [done|].
    split; [|done]. apply orb_true_iff in Hmatch.
    rewrite !str_eqb_eq in Hmatch. done.
  - specialize (Hfind port Hport). apply orb_false_iff in Hfind as [Hd Hn].
    apply str_eqb_neq in Hd, Hn. tauto.
Qed.

(** X29. An index from one to the number of ports selects the port at that
    place in the list; any other index selects what no key selects. *)
Lemma get_serial_port_index (comports : list ListPortInfo) (index : Z) :
  (1 <= index <= len (get_serial_port_list comports) ->
   exists port,
     get_serial_port_list comports !! Z.to_nat (index - 1) = Some port
     /\ get_serial_port comports (Some (PyInt index)) = Some (device port))
  /\ (~ 1 <= index <= len (get_serial_port_list comports) ->
      get_serial_port comports (Some (PyInt index))
      = get_serial_port comports None).
Proof.
  rewrite !get_serial_port_steps. cbv zeta.
  destruct (port_at_in_range (get_serial_port_list comports) index None)
    as [Hin Hno].
  split.
  - intros Hrange. destruct (Hin Hrange) as (port & Hport & Hat).
    exists port. split; [done|]. by rewrite Hat.
  - intros Hrange. by rewrite Hno.
Qed.

Lemma digits_value_step (s : list ascii) :
  digits_value s = foldl digit_step 0 s.
Proof. reflexivity. Qed.

Lemma digits_of_uint (d a : Decimal.uint) :
  foldl digit_step (Z.of_N (Unsigned.of_lu a))
        (lit (NilEmpty.string_of_uint d))
  = Z.of_N (Unsigned.of_lu (Decimal.revapp d a)).
Proof.
  revert a. induction d; intros a; cbn [NilEmpty.string_of_uint lit
    list_ascii_of_string foldl Decimal.revapp]; [done|..];
    rewrite <- IHd; f_equal; unfold digit_step;
    match goal with
    | |- context [isdigit ?c] =>
        let b := eval vm_compute in (isdigit c) in
        let n := eval vm_compute in (nat_of_ascii c) in
        change (isdigit c) with b; change (nat_of_ascii c) with n
    end;
    cbv iota; cbn [Unsigned.of_lu]; lia.
Qed.

Lemma digits_value_uint (d : Decimal.uint) :
  digits_value (lit (NilEmpty.string_of_uint d)) = Z.of_N (Pos.of_uint d).
Proof.
  rewrite digits_value_step, Unsigned.of_uint_alt.
  apply (digits_of_uint d Decimal.Nil).
Qed.

Lemma str_of_pos (p : positive) :
  NilZero.string_of_uint (Pos.to_uint p)
  = NilEmpty.string_of_uint (Pos.to_uint p).
Proof.
  pose proof (Unsigned.to_uint_nonnil p).
  by destruct (Pos.to_uint p).
Qed.

Lemma int_of_str_of_int (z : Z) : int_of_str (str_of_int z) = Some z.
Proof.
  unfold int_of_str. rewrite int_accepts_str_of_int.
  unfold str_of_int.
  destruct z as [|p|p]; cbn [Z.to_int NilZero.string_of_int].
  - reflexivity.
  - destruct (str_of_nat_digits (Pos.to_uint p)) as [Hd Hne].
    rewrite digits_strip by done. rewrite str_of_pos in *.
    pose proof (digits_value_uint (Pos.to_uint p)) as Hval.
    rewrite Unsigned.of_to in Hval.
    destruct (lit (NilEmpty.string_of_uint (Pos.to_uint p))) as [|c s];
      [done|].
    apply Forall_cons in Hd as [Hc _].
    assert (Ascii.eqb c "-" = false) as ->.
    { pose proof (isdigit_not_sign c Hc) as Hs.
      by apply orb_false_iff in Hs as [_ ?]. }
    by rewrite Hval.
  - destruct (str_of_nat_digits (Pos.to_uint p)) as [Hd Hne].
    change (lit (String "-" (NilZero.string_of_uint (Pos.to_uint p))))
      with ("-"%char :: lit (NilZero.string_of_uint (Pos.to_uint p))).
    destruct (exists_last Hne) as (front & last_digit & Hz).
    assert (isdigit last_digit = true).
    { rewrite Hz in Hd. apply Forall_app in Hd as [_ Hd].
      by apply Forall_cons in Hd as [? _]. }
    rewrite (strip_kept _ "-"%char last_digit
               (lit (NilZero.string_of_uint (Pos.to_uint p))));
      [| done | exists ("-"%char :: front); by rewrite Hz
       | reflexivity | by apply isdigit_not_space].
    change (Ascii.eqb "-" "-") with true. cbv iota.
    rewrite str_of_pos, digits_value_uint, Unsigned.of_to. done.
Qed.

(** X30. The decimal string of an index selects what the index selects,
    unless a listed port has that string for device or name. *)
Lemma get_serial_port_index_string (comports : list ListPortInfo)
    (index : Z) :
  (forall port, port ∈ get_serial_port_list comports ->
                device port <> str_of_int index
                /\ name port <> str_of_int index) ->
  get_serial_port comports (Some (PyStr (str_of_int index)))
  = get_serial_port comports (Some (PyInt index)).
Proof.
  intros Hnone. rewrite !get_serial_port_steps. cbv zeta.
  pose proof (find_first_match
                (fun port => str_eqb (device port) (str_of_int index)
                             || str_eqb (name port) (str_of_int index))
                (get_serial_port_list comports)) as Hfind.
  destruct (find _ (get_serial_port_list comports)) as [found|].
  - destruct Hfind as [Hin Hmatch]. destruct (Hnone found Hin) as [Hd Hn].
    apply orb_true_iff in Hmatch. rewrite !str_eqb_eq in Hmatch. tauto.
  - by rewrite int_of_str_of_int.
Qed.

(** ** [filter_number] *)

Lemma filter_number_truncates_witness :
  filter_number demo (PyInt 123456789) = Ok (lit "12345E+4").
Proof.
  exact (filter_number_truncates demo (PyInt 123456789) eq_refl
           ltac:(vm_compute; lia) ltac:(vm_compute; lia)).
Defined.

Lemma filter_number_short_by_one_witness :
  filter_number demo (PyInt (10 ^ 103))
  = Ok (take 3 (py_str (PyInt (10 ^ 103))) ++ lit "E+100").
Proof.
  exact (proj1 (filter_number_short_by_one demo (PyInt (10 ^ 103)) eq_refl
                  ltac:(vm_compute; lia) ltac:(vm_compute; reflexivity))).
Defined.

Lemma filter_number_again_witness :
  filter_number demo (PyStr (lit "12345E+4")) = Ok (lit "12345E+4").
Proof.
  apply (filter_number_again demo (PyInt 123456789)). reflexivity.
Defined.

(** ** [parse_message_chunks] *)

Lemma parse_message_chunks_several_witness :
  (2 <= length [lit "Subscrib"; lit "ers"])%nat.
Proof.
  apply (parse_message_chunks_several (lit "Subscribers") 8
           default_delimeter [lit "Subscrib"; lit "ers"]).
  - vm_compute. reflexivity.
  - vm_compute. lia.
Defined.

Lemma space_separated_clean :
  Forall (clean (lit " ")) [lit "hello"; lit "world"; lit "again"].
Proof.
  repeat constructor; try done;
    intros Hin; apply list_elem_of_In in Hin; cbn in Hin;
    intuition discriminate.
Qed.

Lemma parse_message_chunks_words_witness :
  exists chunks,
    parse_message_chunks (PyStr (lit "hello world again")) 8 (lit " ")
    = Ok chunks
    /\ join (lit " ") chunks = lit "hello world again".
Proof.
  apply (parse_message_chunks_words (lit " ")
           [lit "hello"; lit "world"; lit "again"] 8).
  - discriminate.
  - discriminate.
  - exact space_separated_clean.
  - repeat constructor; vm_compute; lia.
Defined.

Lemma parse_message_chunks_settled_witness :
  (8 < length (lit "The" ++ lit " " ++ lit "quick"))%nat.
Proof.
  apply (parse_message_chunks_settled (lit "The quick brown fox") 8 (lit " ")
           [lit "The"; lit "quick"; lit "brown"; lit "fox"]
           ltac:(vm_compute; reflexivity) 0%nat); reflexivity.
Defined.

(** ** [filter_string] *)

(** X8. Every character of a filtered string is one the display has, or
    the replacement; and filtering goes through concatenation. *)
Theorem filter_string_shown_or_replaced (self : SplitflapPrinter)
    (s : list ascii) (replacement : ascii) :
  Forall (fun c => in_character_list self c = true \/ c = replacement)
         (filter_string self s replacement)
  /\ forall a b,
       filter_string self (a ++ b) replacement
       = filter_string self a replacement ++ filter_string self b replacement.
Proof.
  split; [apply filter_string_displayable|].
  intros a b. apply filter_string_app.
Qed.

(** ** [align_text] *)

(** X9. For "left", "right" and "center", in any case of letters, the
    aligned text is as long as the longer of the text and the length asked
    for; any other alignment leaves the text alone; and the text is always
    kept whole, between spaces. *)
Theorem align_text_pads (self : SplitflapPrinter) (text align : list ascii)
    (length_arg : option nat) :
  (known_align align ->
   length (align_text self text align length_arg)
   = Nat.max (length text) (default (get_num_modules self) length_arg))
  /\ (~ known_align align -> align_text self text align length_arg = text)
  /\ exists l r : nat,
       align_text self text align length_arg
       = replicate l " "%char ++ text ++ replicate r " "%char.
Proof.
  destruct (align_text_size self text align length_arg) as (Hk & Ho & _).
  split; [done|]. split; [done|].
  destruct (align_text_padding self text align length_arg)
    as (l & r & Heq & _).
  by exists l, r.
Qed.

Lemma align_text_pads_witness :
  length (align_text demo (lit "abc") (lit "Right") None) = 8%nat.
Proof.
  apply (proj1 (align_text_pads demo (lit "abc") (lit "Right") None)).
  right. left. reflexivity.
Defined.

(** ** [print], [clear], [print_stat] *)

(** X10. On a display with modules, and for a known alignment, [print]
    shows at least one page, each page has exactly as many characters as
    there are modules, each character is one the display has, the
    replacement or a space; the port, the modules and the flaps stay as they
    are, and so does the device while the port is closed. *)
Theorem print_fills_display (self self' : SplitflapPrinter) (text : pyval)
    (align : list ascii) :
  (0 < get_num_modules self)%nat -> known_align align ->
  print self text align = Ok self' -> shows_full_pages self self'.
Proof. apply print_full_pages. Qed.

Lemma print_fills_display_witness :
  shows_full_pages demo
    (set_text (set_text demo (lit "YouTube") (lit "center")) (lit "Stats")
       (lit "center")).
Proof.
  apply (print_fills_display demo _ (PyStr (lit "YouTube Stats"))
           (lit "center")).
  - vm_compute. lia.
  - right. right. reflexivity.
  - vm_compute. reflexivity.
Defined.

(** X12. The same holds of everything [print_stat] shows: at least one
    page, every page as long as the display and made of characters the
    display has, the replacement or spaces. *)
Theorem print_stat_fills_display (self self' : SplitflapPrinter)
    (prefixes : prefixes_arg) (value : pyval) (align : list ascii)
    (two_step : bool) :
  (0 < get_num_modules self)%nat -> known_align align ->
  print_stat self prefixes value align two_step = Ok self' ->
  shows_full_pages self self'.
Proof. apply print_stat_full_pages. Qed.

Lemma print_stat_fills_display_witness :
  exists self',
    print_stat demo (POne (lit "Views")) (PyInt 1234567) (lit "right") true
    = Ok self'
    /\ shows_full_pages demo self'.
Proof.
  destruct (print_stat demo (POne (lit "Views")) (PyInt 1234567) (lit "right")
              true) as [self'|e] eqn:Hrun.
  - exists self'. split; [reflexivity|].
    apply (print_stat_fills_display demo self' (POne (lit "Views"))
             (PyInt 1234567) (lit "right") true).
    + vm_compute. lia.
    + right. left. reflexivity.
    + exact Hrun.
  - vm_compute in Hrun. discriminate Hrun.
Defined.

(** X14. When the chosen label and the value fit together, [print_stat]
    ends with one page that holds both: for "right" the label, spaces and
    the value, for "left" the value, spaces and the label, filling the
    display exactly. Before it the label is shown alone, with the inverted
    alignment, when [two_step] is set and no label is on the display
    yet. *)
Theorem print_stat_one_line (self : SplitflapPrinter) (prefixes : prefixes_arg)
    (value : pyval) (align : list ascii) (two_step : bool)
    (shown_value label : list ascii) :
  filter_number self value = Ok shown_value ->
  get_stat_prefix self prefixes (PyStr shown_value) = Ok (Some label) ->
  label <> [] ->
  (length (label ++ lit " " ++ shown_value) <= get_num_modules self)%nat ->
  let gap :=
    replicate (get_num_modules self - length label - length shown_value)
      " "%char in
  let line :=
    if str_eqb align (lit "left") then shown_value ++ gap ++ label
    else if str_eqb align (lit "right") then label ++ gap ++ shown_value
    else shown_value ++ lit " " ++ label in
  (align = lit "left" \/ align = lit "right" ->
   length line = get_num_modules self)
  /\ exists self',
       print_stat self prefixes value align two_step = Ok self'
       /\ shows self self'
            ((if two_step
                 && negb (already_displaying_prefix self
                            (seen_prefixes prefixes))
              then [rendered self label (invert_align align)] else [])
             ++ [rendered self line align]).
Proof.
  intros Hvalue Hprefix Hlabel Hfit gap line.
  destruct (combined_str_fills self label shown_value align Hfit)
    as (Hright & Hleft & Hfull & Hle & _).
  assert (Hline : combined_str self label shown_value align = line).
  { subst line gap. destruct (str_eqb align (lit "left")) eqn:El.
    - apply str_eqb_eq in El. by apply Hleft.
    - destruct (str_eqb align (lit "right")) eqn:Er.
      + apply str_eqb_eq in Er. by apply Hright.
      + unfold combined_str. by rewrite El, Er. }
  rewrite <- Hline. split; [exact Hfull|].
  by apply print_stat_together.
Qed.

Lemma print_stat_one_line_witness :
  exists self',
    print_stat demo (PList [lit "Subscribers"; lit "Subs"; lit "Sub"])
      (PyInt 12) (lit "right") true = Ok self'
    /\ stdout self' = [lit "subs    "; lit "subs  12"].
Proof.
  destruct (print_stat_one_line demo
              (PList [lit "Subscribers"; lit "Subs"; lit "Sub"])
              (PyInt 12) (lit "right") true (lit "12") (lit "Subs")
              eq_refl eq_refl ltac:(discriminate) ltac:(vm_compute; lia))
    as (_ & self' & Hrun & Hshows).
  exists self'. split; [exact Hrun|].
  exact (proj1 (proj2 (proj2 (proj2 (proj2 Hshows))))).
Defined.

(** X15. On a display without a port, once [print_stat] has shown label
    and value together, [already_displaying_prefix] finds the label: the
    next [print_stat] with these labels does not show the label alone
    again. *)
Theorem print_stat_leaves_label (self self' : SplitflapPrinter)
    (prefixes : prefixes_arg) (value : pyval) (align : list ascii)
    (two_step : bool) (shown_value label : list ascii) :
  serial_isOpen self = false ->
  filter_number self value = Ok shown_value ->
  get_stat_prefix self prefixes (PyStr shown_value) = Ok (Some label) ->
  label <> [] ->
  (length (label ++ lit " " ++ shown_value) <= get_num_modules self)%nat ->
  print_stat self prefixes value align two_step = Ok self' ->
  already_displaying_prefix self' (seen_prefixes prefixes) = true.
Proof.
  intros Hclosed Hvalue Hprefix Hlabel Hfit Hrun.
  destruct (combined_str_fills self label shown_value align Hfit)
    as (_ & _ & _ & Hle & a & b & Hparts).
  destruct (print_stat_together self prefixes value align two_step
              shown_value label Hvalue Hprefix Hlabel Hle Hfit)
    as (self0 & Hrun0 & Hshows).
  rewrite Hrun in Hrun0. injection Hrun0 as <-.
  rewrite Hparts in Hshows.
  pose proof (get_stat_prefix_member _ _ _ _ Hprefix) as Hmember.
  assert (seen_prefixes prefixes = Some (as_sorted_list prefixes)) as ->.
  { destruct prefixes; [|done..]. by apply elem_of_nil in Hmember. }
  by apply (label_on_display self self' _ a label b align _ Hshows).
Qed.

Lemma print_stat_leaves_label_witness :
  exists self',
    print_stat demo (PList [lit "Subscribers"; lit "Subs"; lit "Sub"])
      (PyInt 12) (lit "right") true = Ok self'
    /\ already_displaying_prefix self'
         (Some [lit "Subscribers"; lit "Subs"; lit "Sub"]) = true.
Proof.
  destruct (print_stat demo (PList [lit "Subscribers"; lit "Subs"; lit "Sub"])
              (PyInt 12) (lit "right") true) as [self'|e] eqn:Hrun.
  - exists self'. split; [reflexivity|].
    apply (print_stat_leaves_label demo self'
             (PList [lit "Subscribers"; lit "Subs"; lit "Sub"]) (PyInt 12)
             (lit "right") true (lit "12") (lit "Subs")
             eq_refl eq_refl eq_refl ltac:(discriminate)
             ltac:(vm_compute; lia) Hrun).
  - vm_compute in Hrun. discriminate Hrun.
Defined.

(** ** The trackers of [YouTubeStats] *)

Lemma add_tracker_once_witness :
  NoDup (add_tracker 2%nat (add_tracker 2%nat [1%nat])).
Proof.
  apply (proj1 (proj2 (add_tracker_once 2%nat (add_tracker 2%nat [1%nat])))).
  apply (proj1 (proj2 (add_tracker_once 2%nat [1%nat]))).
  apply NoDup_singleton.
Defined.

Lemma remove_tracker_undoes_add_witness :
  remove_tracker 2%nat (add_tracker 2%nat [1%nat; 3%nat])
  = Some [1%nat; 3%nat].
Proof.
  apply (proj1 (remove_tracker_undoes_add 2%nat [1%nat; 3%nat])).
  intros Hin. apply list_elem_of_In in Hin. cbn in Hin. intuition discriminate.
Defined.

Lemma get_sleep_time_next_witness :
  exists obj t,
    obj ∈ [ {| update_rate := 3600; last_update := Some 10 |};
            {| update_rate := 120; last_update := Some 10 |} ]
    /\ next_update obj = Some t /\ t <= 50 + 80.
Proof.
  destruct (get_sleep_time_next
              [ {| update_rate := 3600; last_update := Some 10 |};
                {| update_rate := 120; last_update := Some 10 |} ] 50 80
              eq_refl) as (_ & _ & Hsome).
  exact (proj1 (Hsome ltac:(discriminate))).
Defined.

(** X19. A run that returns leaves the update rate alone and the tracker
    with a time of last update. When it is not due nothing changes; when it
    is due the time of last update becomes the clock, also when the fetch
    fails, and then display, count and difference stay as they were. *)
Theorem SubscriberCounter_run_limits (response : option Z) (now : Z)
    (self self' : SubscriberCounter) (display display' : SplitflapPrinter) :
  SubscriberCounter_run response now self display = Ok (self', display') ->
  update_rate (base self') = update_rate (base self)
  /\ last_update (base self') <> None
  /\ (due base now self = false -> self' = self /\ display' = display)
  /\ (due base now self = true ->
      last_update (base self') = Some now
      /\ (response = None ->
          display' = display /\ subs self' = subs self
          /\ diff self' = diff self)).
Proof. apply SubscriberCounter_run_timer. Qed.

Lemma SubscriberCounter_run_limits_witness :
  last_update
    (base (SubscriberCounter_set_last_update 5
             (new_SubscriberCounter true true 120))) = Some 5.
Proof.
  apply (SubscriberCounter_run_limits None 5
           (new_SubscriberCounter true true 120) _ demo demo eq_refl).
  reflexivity.
Defined.

Lemma SubscriberCounter_run_again_witness :
  SubscriberCounter_run (Some 7) 100
    (SubscriberCounter_set_last_update 5
       (new_SubscriberCounter true true 120)) demo
  = Ok (SubscriberCounter_set_last_update 5
          (new_SubscriberCounter true true 120), demo).
Proof.
  apply (SubscriberCounter_run_again None (Some 7) 5 100
           (new_SubscriberCounter true true 120) _ demo demo eq_refl eq_refl).
  vm_compute. reflexivity.
Defined.

Lemma SubscriberCounter_show_pages_witness :
  exists display',
    SubscriberCounter_show counter_at_zero demo = Ok display'
    /\ shows_full_pages demo display'.
Proof.
  destruct (SubscriberCounter_show counter_at_zero demo)
    as [display'|e] eqn:Hshow.
  - exists display'. split; [reflexivity|].
    destruct (SubscriberCounter_show_pages counter_at_zero demo display'
                ltac:(vm_compute; lia) Hshow) as [[Hnone _] | [_ Hpages]].
    + discriminate Hnone.
    + exact Hpages.
  - vm_compute in Hshow. discriminate Hshow.
Defined.

(** ** [RecentVideoStats.fetch] *)

Lemma RecentVideoStats_fetch_rates_witness :
  exists self',
    RecentVideoStats_fetch (fun _ => Some 1000) some_video 2000
      fresh_RecentVideoStats = Returned true self'
    /\ update_rate (recent_base self') = 1800
    /\ latest_video self' = Some (lit "dQw4w9WgXcQ").
Proof.
  eexists. split; [reflexivity|].
  destruct (RecentVideoStats_fetch_rates (fun _ => Some 1000) some_video 2000
              fresh_RecentVideoStats _ true eq_refl)
    as (_ & _ & _ & _ & Hall).
  destruct (Hall _ _ _ eq_refl eq_refl eq_refl)
    as (_ & Hvideo & _ & video_time & _ & _ & Hrate).
  split; [exact Hrate | exact Hvideo].
Defined.

Lemma RecentVideoStats_fetch_unbound_witness :
  exists self',
    RecentVideoStats_fetch (fun _ => None) some_video 2000
      fresh_RecentVideoStats = UnboundLocalError self'
    /\ update_rate (recent_base self') = 300.
Proof.
  destruct (RecentVideoStats_fetch_unbound (fun _ => None) some_video 2000
              fresh_RecentVideoStats _ _ _ eq_refl eq_refl eq_refl eq_refl)
    as (self' & Hrun & Hrate & _).
  exists self'. split; [exact Hrun | exact Hrate].
Defined.

(** ** The serial ports *)

Lemma get_serial_port_listed_witness :
  exists port,
    port ∈ get_serial_port_list two_ports /\ device port = lit "COM3".
Proof.
  apply (proj2 (get_serial_port_listed two_ports None) (lit "COM3")).
  reflexivity.
Defined.

Lemma get_serial_port_named_witness :
  exists port,
    port ∈ get_serial_port_list two_ports
    /\ (device port = lit "COM7" \/ name port = lit "COM7")
    /\ get_serial_port two_ports (Some (PyStr (lit "COM7")))
       = Some (device port).
Proof.
  apply (get_serial_port_named two_ports (lit "COM7")).
  eexists. split; [right; left | left; reflexivity].
Defined.

Lemma get_serial_port_index_witness :
  exists port,
    get_serial_port_list two_ports !! Z.to_nat (2 - 1) = Some port
    /\ get_serial_port two_ports (Some (PyInt 2)) = Some (device port).
Proof.
  apply (proj1 (get_serial_port_index two_ports 2)). vm_compute.
  split; discriminate.
Defined.

Lemma get_serial_port_index_string_witness :
  get_serial_port two_ports (Some (PyStr (str_of_int 2)))
  = get_serial_port two_ports (Some (PyInt 2)).
Proof.
  apply (get_serial_port_index_string two_ports 2).
  intros port Hport. apply list_elem_of_In in Hport. vm_compute in Hport.
  destruct Hport as [<- | [<- | []]]; split; discriminate.
Defined.

(** ** [SubscriberCounter.fetch] *)

(** X21. A fetch without the subscriber count fails and changes nothing. A
    fetch with one succeeds, stores the count and leaves timer and labels
    alone; the difference it stores is the new count less the old one, and
    zero when there was no old count or the old count was zero. *)
Theorem SubscriberCounter_fetch_stores (self : SubscriberCounter) :
  SubscriberCounter_fetch None self = (false, self)
  /\ forall new_subs : Z,
       exists self',
         SubscriberCounter_fetch (Some new_subs) self = (true, self')
         /\ subs self' = Some new_subs
         /\ base self' = base self
         /\ sub_prefixes self' = sub_prefixes self
         /\ show_diff self' = show_diff self
         /\ diff self' = match subs self with
                         | Some old_subs =>
                             if old_subs =? 0 then 0 else new_subs - old_subs
                         | None => 0
                         end.
Proof.
  split; [reflexivity|]. intros new_subs. eexists.
  split; [reflexivity|]. cbn. repeat split.
  destruct (subs self) as [old_subs|]; [|lia].
  destruct (old_subs =? 0); lia.
Qed.

Lemma get_stat_prefix_edges_witness :
  get_stat_prefix demo (POne (lit "Comments")) (PyInt 1234567)
  = Ok (Some (lit "Comments")).
Proof.
  apply (proj2 (proj2 (proj2 (get_stat_prefix_edges demo (PyInt 1234567))))
           (lit "Comments")).
  discriminate.
Defined.
